(** * Wordbomb multiplayer server: a shallow embedding and its properties

    The development follows the two server-side files of the repository:
    - the dictionary index, the syllable selector, the turn timer and the
      socket handlers of [server.js];
    - the session and room registry of [roomManager.js].

    Conventions of the embedding.
    - A JavaScript string is a [string]; each character stands for one
      UTF-16 code unit.  The case mappings, [trim] and the [\p{L}] class
      are given on the ASCII range; other code units are left unchanged by
      the case mappings and are neither white space nor letters.
    - [Date.now()] is an explicit argument [now : Z] (milliseconds).
    - [Math.floor(Math.random() * n)] is an explicit argument [r : nat]
      read modulo [n]: every index below [n] can be drawn and no other.
    - A JS [Map] or [Set] whose iteration order is observable is a list in
      insertion order; the other maps are [gmap]s.
    - A handler returns the new state together with the list of events it
      emitted, oldest first.
    - [setInterval] handles are represented by the data their closure
      captures (end time and total duration). *)

From Stdlib Require Import Ascii String ZArith Lia DecimalString.
From stdpp Require Import gmap strings list fin_maps.

Local Open Scope Z_scope.
Local Open Scope nat_scope.

(* ===================================================================== *)
(** * JavaScript string primitives                                        *)
(* ===================================================================== *)

Module Js.

Definition charCode (c : ascii) : nat := nat_of_ascii c.

Definition isSpace (c : ascii) : bool :=
  let n := charCode c in (n =? 32) || ((9 <=? n) && (n <=? 13)).

Definition isUpper (c : ascii) : bool :=
  let n := charCode c in (65 <=? n) && (n <=? 90).

Definition isLower (c : ascii) : bool :=
  let n := charCode c in (97 <=? n) && (n <=? 122).

(** [\p{L}] on the ASCII range. *)
Definition isLetter (c : ascii) : bool := isUpper c || isLower c.

Definition upperChar (c : ascii) : ascii :=
  if isLower c then ascii_of_nat (charCode c - 32) else c.

Definition lowerChar (c : ascii) : ascii :=
  if isUpper c then ascii_of_nat (charCode c + 32) else c.

Fixpoint mapChars (f : ascii → ascii) (s : string) : string :=
  match s with
  | EmptyString => EmptyString
  | String c s' => String (f c) (mapChars f s')
  end.

Definition toUpperCase : string → string := mapChars upperChar.
Definition toLowerCase : string → string := mapChars lowerChar.

Fixpoint trimStart (s : string) : string :=
  match s with
  | EmptyString => EmptyString
  | String c s' => if isSpace c then trimStart s' else s
  end.

Fixpoint trimEnd (s : string) : string :=
  match s with
  | EmptyString => EmptyString
  | String c s' =>
      match trimEnd s' with
      | EmptyString => if isSpace c then EmptyString else String c EmptyString
      | t => String c t
      end
  end.

Definition trim (s : string) : string := trimEnd (trimStart s).

(** [s.substring(i, j)] for [i <= j]; both ends are clamped to the
    length of [s], as in JS. *)
Definition substring (i j : nat) (s : string) : string :=
  String.substring i (j - i) s.

Fixpoint startsWith (p s : string) : bool :=
  match p, s with
  | EmptyString, _ => true
  | String a p', String b s' => if Ascii.eqb a b then startsWith p' s' else false
  | String _ _, EmptyString => false
  end.

(** [s.includes(sub)] *)
Fixpoint includes (sub s : string) : bool :=
  startsWith sub s ||
  match s with
  | EmptyString => false
  | String _ s' => includes sub s'
  end.

(** [s.split(sep)] for a one-character separator. *)
Fixpoint split (sep : ascii) (s : string) : list string :=
  match s with
  | EmptyString => [EmptyString]
  | String c s' =>
      if Ascii.eqb c sep then EmptyString :: split sep s'
      else match split sep s' with
           | h :: t => String c h :: t
           | [] => [String c EmptyString]
           end
  end.

Fixpoint allChars (f : ascii → bool) (s : string) : bool :=
  match s with
  | EmptyString => true
  | String c s' => f c && allChars f s'
  end.

(** [s.replace(/c/g, by)] for a one-character pattern. *)
Fixpoint replaceAll (c : ascii) (by_ : string) (s : string) : string :=
  match s with
  | EmptyString => EmptyString
  | String a s' =>
      if Ascii.eqb a c then by_ +:+ replaceAll c by_ s'
      else String a (replaceAll c by_ s')
  end.

(** Truthiness of a string: only the empty string is falsy. *)
Definition truthy (s : string) : bool :=
  match s with EmptyString => false | _ => true end.

(** [a || b] on strings. *)
Definition or (a b : string) : string := if truthy a then a else b.

(** [`${n}`] for a non-negative integer. *)
Definition ofNat (n : nat) : string := NilZero.string_of_uint (Nat.to_uint n).

(** ** 32-bit integer conversions and the double-precision product *)

Definition toInt32 (z : Z) : Z :=
  let m := (z mod 2 ^ 32)%Z in
  if (m <? 2 ^ 31)%Z then m else (m - 2 ^ 32)%Z.

Definition toUint32 (z : Z) : Z := (z mod 2 ^ 32)%Z.

(** The value of an integer once stored in a double: integers below
    [2^53] in absolute value are exact; above, the 53 leading bits are
    kept and the rest is rounded to nearest, ties to even. *)
Definition roundDouble (z : Z) : Z :=
  let a := Z.abs z in
  if (a <? 2 ^ 53)%Z then z
  else
    let e := (Z.log2 a - 52)%Z in
    let q := Z.shiftr a e in
    let r := (a - Z.shiftl q e)%Z in
    let half := (2 ^ (e - 1))%Z in
    let q' :=
      if (r <? half)%Z then q
      else if (half <? r)%Z then (q + 1)%Z
      else if Z.even q then q else (q + 1)%Z in
    (Z.sgn z * Z.shiftl q' e)%Z.

(** ** A [Set] of strings in insertion order *)

Definition set_has (s : string) (l : list string) : bool :=
  existsb (String.eqb s) l.

Definition set_add (s : string) (l : list string) : list string :=
  if set_has s l then l else l ++ [s].

(** ** A [Map] with string keys in insertion order *)

Section Map.
Context {V : Type}.

Fixpoint map_get (k : string) (m : list (string * V)) : option V :=
  match m with
  | [] => None
  | (k', v) :: m' => if String.eqb k' k then Some v else map_get k m'
  end.

(** [m.set(k, v)]: an existing key keeps its position. *)
Fixpoint map_set (k : string) (v : V) (m : list (string * V)) : list (string * V) :=
  match m with
  | [] => [(k, v)]
  | (k', v') :: m' =>
      if String.eqb k' k then (k, v) :: m' else (k', v') :: map_set k v m'
  end.
End Map.

End Js.

(* ===================================================================== *)
(** * The dictionary index ([server.js])                                  *)
(* ===================================================================== *)

Definition LENGTHS : list nat := [2; 3; 4].

(** [SAMPLE_WORDS_CAP]: the default of the [SAMPLE_CAP] environment
    variable. *)
Definition SAMPLE_WORDS_CAP : nat := 30.

(** [hashWord]: FNV-1a over the code units.  [h ^= c] yields a signed
    32-bit integer; the product with the FNV prime is computed in double
    precision and may exceed [2^53], hence [Js.roundDouble]; [>>> 0] brings
    the result back to an unsigned 32-bit integer. *)
Definition hashStep (h : Z) (c : ascii) : Z :=
  let x := Z.lxor (Js.toInt32 h) (Z.of_nat (Js.charCode c)) in
  Js.toUint32 (Js.roundDouble (x * 16777619)%Z).

Fixpoint hashFrom (h : Z) (str : string) : Z :=
  match str with
  | EmptyString => h
  | String c s' => hashFrom (hashStep h c) s'
  end.

Definition hashWord (str : string) : Z := hashFrom 2166136261%Z str.

Definition normalizeWord (raw : string) : string :=
  if Js.truthy raw then Js.toUpperCase (Js.trim raw) else "".

Definition wordParts (word : string) : list string :=
  filter (λ p, Js.truthy p = true) (Js.split "-"%char word).

Definition isAllLetters (s : string) : bool :=
  Js.truthy s && Js.allChars Js.isLetter s.

(** The three module-level variables of the index, with [ready] and
    [readyMessage].  [syllableCounts] is an object indexed by the length;
    [wordsBySyll] is an object indexed by ["L:SYL"]; [dictionarySet] is
    [null] until the first build. *)
Record Index := mkIndex {
  ready : bool;
  readyMessage : string;
  syllableCounts : gmap nat (list (string * nat));
  wordsBySyll : gmap string (list string);
  dictionarySet : option (gset Z)
}.

(** The state at module load: [LENGTHS.forEach(L => syllableCounts[L] = new Map())]. *)
Definition emptyCounts : gmap nat (list (string * nat)) :=
  fold_left (λ m L, <[L := []]> m) LENGTHS ∅.

Definition initialIndex : Index :=
  {| ready := false; readyMessage := "Initializing";
     syllableCounts := emptyCounts; wordsBySyll := ∅; dictionarySet := None |}.

Definition dictHas (idx : Index) (word : string) : bool :=
  match dictionarySet idx with
  | None => false
  | Some s => bool_decide (hashWord word ∈ s)
  end.

(** [x || null] on a count. *)
Definition nonZero (n : nat) : option nat := if n =? 0 then None else Some n.

Definition getSyllableCount (idx : Index) (syl : string) : option nat :=
  if Js.truthy syl then
    match syllableCounts idx !! String.length syl with
    | None => None
    | Some map => Js.map_get (Js.toUpperCase syl) map ≫= nonZero
    end
  else None.

(** ** [buildStatsFromDictionary] *)

(** [seenSylsInWord]: one set per length. *)
Definition newSeen : gmap nat (list string) :=
  fold_left (λ m L, <[L := []]> m) LENGTHS ∅.

(** The innermost loop: [for (i = 0; i <= part.length - L; i++)]. *)
Definition scanOffsets (part : string) (L : nat) (seen : gmap nat (list string))
  : gmap nat (list string) :=
  fold_left
    (λ acc i,
       let syl := Js.substring i (i + L) part in
       if isAllLetters syl then alter (Js.set_add syl) L acc else acc)
    (seq 0 (String.length part - L + 1)) seen.

(** [LENGTHS.forEach(L => { if (part.length < L) return; ... })] *)
Definition scanPart (seen : gmap nat (list string)) (part : string)
  : gmap nat (list string) :=
  fold_left
    (λ acc L, if String.length part <? L then acc else scanOffsets part L acc)
    LENGTHS seen.

Definition scanWord (word : string) : gmap nat (list string) :=
  fold_left scanPart (wordParts word) newSeen.

(** [map.set(syl, (map.get(syl) || 0) + 1)] *)
Definition bumpCount (syl : string) (map : list (string * nat)) : list (string * nat) :=
  Js.map_set syl (default 0 (Js.map_get syl map) + 1) map.

(** One iteration of [for (const syl of seenSylsInWord[L])]. *)
Definition countSyllable (L : nat) (word : string) (idx : Index) (syl : string) : Index :=
  let key := Js.ofNat L +:+ ":" +:+ syl in
  let samples := default [] (wordsBySyll idx !! key) in
  let samples' :=
    if length samples <? SAMPLE_WORDS_CAP then samples ++ [word] else samples in
  {| ready := ready idx; readyMessage := readyMessage idx;
     syllableCounts := alter (bumpCount syl) L (syllableCounts idx);
     wordsBySyll := <[key := samples']> (wordsBySyll idx);
     dictionarySet := dictionarySet idx |}.

Definition addHash (h : Z) (idx : Index) : Index :=
  {| ready := ready idx; readyMessage := readyMessage idx;
     syllableCounts := syllableCounts idx; wordsBySyll := wordsBySyll idx;
     dictionarySet := Some ({[h]} ∪ default ∅ (dictionarySet idx)) |}.

(** The handler of [rl.on('line', ...)]; the second component is
    [linesProcessed]. *)
Definition onLine (acc : Index * nat) (line : string) : Index * nat :=
  let '(idx, linesProcessed) := acc in
  let word := normalizeWord line in
  if Js.truthy word then
    let idx1 := addHash (hashWord word) idx in
    let seen := scanWord word in
    let idx2 :=
      fold_left
        (λ st L, fold_left (countSyllable L word) (default [] (seen !! L)) st)
        LENGTHS idx1 in
    (idx2, S linesProcessed)
  else acc.

(** What reading the dictionary file yields: the file is absent; every
    line is delivered and the stream closes; or the stream fails after
    some lines were delivered. *)
Inductive DictFile :=
  | FileAbsent
  | FileLines (lines : list string)
  | FileError (delivered : list string) (message : string).

Definition resetSet (idx : Index) : Index :=
  {| ready := ready idx; readyMessage := readyMessage idx;
     syllableCounts := syllableCounts idx; wordsBySyll := wordsBySyll idx;
     dictionarySet := Some ∅ |}.

(** The promise of [buildStatsFromDictionary]: the index as the line
    handler left it, and either the rejection message or
    [linesProcessed]. *)
Definition buildStatsFromDictionary (idx : Index) (dictPath : string) (f : DictFile)
  : Index * (string + nat) :=
  match f with
  | FileAbsent => (idx, inl ("Dictionary file not found at " +:+ dictPath))
  | FileLines lines =>
      let '(idx', n) := fold_left onLine lines (resetSet idx, 0) in
      (idx', inr n)
  | FileError delivered message =>
      let '(idx', _) := fold_left onLine delivered (resetSet idx, 0) in
      (idx', inl message)
  end.

Definition setReady (b : bool) (msg : string) (idx : Index) : Index :=
  {| ready := b; readyMessage := msg;
     syllableCounts := syllableCounts idx; wordsBySyll := wordsBySyll idx;
     dictionarySet := dictionarySet idx |}.

(** [prepare]: the structures are reset before the build starts. *)
Definition prepare (idx : Index) (dictPath : string) (f : DictFile) : Index :=
  let reset :=
    {| ready := false; readyMessage := "Starting build";
       syllableCounts := fold_left (λ m L, <[L := []]> m) LENGTHS (syllableCounts idx);
       wordsBySyll := ∅;
       dictionarySet := Some ∅ |} in
  match buildStatsFromDictionary reset dictPath f with
  | (idx', inr _) => setReady true "Ready" idx'
  | (idx', inl message) => setReady false ("Error: " +:+ message) idx'
  end.

(* ===================================================================== *)
(** * Sessions and rooms ([roomManager.js])                               *)
(* ===================================================================== *)

(** An absent player name is the empty string. *)
Record Player := mkPlayer {
  p_token : string;
  p_socketId : string;
  p_name : string;
  p_avatar : string;
  p_isHost : bool;
  p_isReady : bool;
  p_lives : nat;
  p_wordsFound : nat;
  p_isAlive : bool;
  p_disconnected : bool
}.

Record Spectator := mkSpectator {
  sp_token : string;
  sp_socketId : string;
  sp_name : string;
  sp_avatar : string
}.

Record Session := mkSession {
  s_socketId : option string;
  s_roomId : option string;
  s_lastDisconnectTime : option Z
}.

Inductive GameState := lobby | playing | finished.

Record Settings := mkSettings {
  scenario : option string;
  wpp : option string;
  maxPlayers : nat;
  startingLives : nat;
  extraTurnSeconds : option Z
}.

(** The closure of an armed [setInterval]: its end time and the total it
    reports in [timerUpdate]. *)
Record Timer := mkTimer { t_endTime : Z; t_total : Z }.

Record Game := mkGame {
  currentSyllable : option string;
  currentPlayerIndex : nat;
  roundNumber : nat;
  startTime : option Z;
  timer : option Timer;
  timerEndTime : option Z;
  timerTotal : option Z;
  paused : bool;
  pausedRemaining : option Z;
  pausedAt : option Z;
  usedSyllables : option (list string);
  serverControlledUntil : option Z
}.

Record Room := mkRoom {
  r_id : string;
  r_name : string;
  r_host : string;
  r_hostAvatar : string;
  r_hostToken : string;
  r_pendingSpectators : list Spectator;
  r_players : list Player;
  r_gameState : GameState;
  r_settings : Settings;
  r_game : Game;
  r_createdAt : Z;
  r_recentlyLeft : option (list (Player * Z))
}.

Record RoomManager := mkRoomManager {
  rooms : gmap string Room;
  sessions : gmap string Session;
  sockets : gmap string string
}.

Global Instance GameState_eq_dec : EqDecision GameState.
Proof. solve_decision. Defined.

(** ** Field updates *)

Definition p_setSocketId (v : string) (p : Player) : Player :=
  mkPlayer (p_token p) v (p_name p) (p_avatar p) (p_isHost p) (p_isReady p)
    (p_lives p) (p_wordsFound p) (p_isAlive p) (p_disconnected p).
Definition p_setIsHost (v : bool) (p : Player) : Player :=
  mkPlayer (p_token p) (p_socketId p) (p_name p) (p_avatar p) v (p_isReady p)
    (p_lives p) (p_wordsFound p) (p_isAlive p) (p_disconnected p).
Definition p_setWordsFound (v : nat) (p : Player) : Player :=
  mkPlayer (p_token p) (p_socketId p) (p_name p) (p_avatar p) (p_isHost p) (p_isReady p)
    (p_lives p) v (p_isAlive p) (p_disconnected p).
Definition p_setDisconnected (v : bool) (p : Player) : Player :=
  mkPlayer (p_token p) (p_socketId p) (p_name p) (p_avatar p) (p_isHost p) (p_isReady p)
    (p_lives p) (p_wordsFound p) (p_isAlive p) v.

Definition s_setSocketId (v : option string) (s : Session) : Session :=
  mkSession v (s_roomId s) (s_lastDisconnectTime s).
Definition s_setRoomId (v : option string) (s : Session) : Session :=
  mkSession (s_socketId s) v (s_lastDisconnectTime s).
Definition s_setLastDisconnectTime (v : option Z) (s : Session) : Session :=
  mkSession (s_socketId s) (s_roomId s) v.

Definition r_setPlayers (v : list Player) (r : Room) : Room :=
  mkRoom (r_id r) (r_name r) (r_host r) (r_hostAvatar r) (r_hostToken r)
    (r_pendingSpectators r) v (r_gameState r) (r_settings r) (r_game r)
    (r_createdAt r) (r_recentlyLeft r).
Definition r_setPendingSpectators (v : list Spectator) (r : Room) : Room :=
  mkRoom (r_id r) (r_name r) (r_host r) (r_hostAvatar r) (r_hostToken r)
    v (r_players r) (r_gameState r) (r_settings r) (r_game r)
    (r_createdAt r) (r_recentlyLeft r).
Definition r_setGameState (v : GameState) (r : Room) : Room :=
  mkRoom (r_id r) (r_name r) (r_host r) (r_hostAvatar r) (r_hostToken r)
    (r_pendingSpectators r) (r_players r) v (r_settings r) (r_game r)
    (r_createdAt r) (r_recentlyLeft r).
Definition r_setGame (v : Game) (r : Room) : Room :=
  mkRoom (r_id r) (r_name r) (r_host r) (r_hostAvatar r) (r_hostToken r)
    (r_pendingSpectators r) (r_players r) (r_gameState r) (r_settings r) v
    (r_createdAt r) (r_recentlyLeft r).
Definition r_setRecentlyLeft (v : option (list (Player * Z))) (r : Room) : Room :=
  mkRoom (r_id r) (r_name r) (r_host r) (r_hostAvatar r) (r_hostToken r)
    (r_pendingSpectators r) (r_players r) (r_gameState r) (r_settings r) (r_game r)
    (r_createdAt r) v.
(** [room.hostToken = t; room.host = n; room.hostAvatar = a] *)
Definition r_setHost (t n a : string) (r : Room) : Room :=
  mkRoom (r_id r) (r_name r) n a t
    (r_pendingSpectators r) (r_players r) (r_gameState r) (r_settings r) (r_game r)
    (r_createdAt r) (r_recentlyLeft r).

Definition g_setTimer (v : option Timer) (g : Game) : Game :=
  mkGame (currentSyllable g) (currentPlayerIndex g) (roundNumber g) (startTime g)
    v (timerEndTime g) (timerTotal g) (paused g) (pausedRemaining g) (pausedAt g)
    (usedSyllables g) (serverControlledUntil g).
Definition g_setCurrentPlayerIndex (v : nat) (g : Game) : Game :=
  mkGame (currentSyllable g) v (roundNumber g) (startTime g)
    (timer g) (timerEndTime g) (timerTotal g) (paused g) (pausedRemaining g) (pausedAt g)
    (usedSyllables g) (serverControlledUntil g).

Definition rm_setRooms (v : gmap string Room) (rm : RoomManager) : RoomManager :=
  mkRoomManager v (sessions rm) (sockets rm).
Definition rm_setSessions (v : gmap string Session) (rm : RoomManager) : RoomManager :=
  mkRoomManager (rooms rm) v (sockets rm).

(** [o || d] for an optional string. *)
Definition orDefault (o : option string) (d : string) : string :=
  match o with Some s => Js.or s d | None => d end.

(** [o || null] for an optional string. *)
Definition orNull (o : option string) : option string :=
  match o with Some s => if Js.truthy s then Some s else None | None => None end.

(** ** The registry *)

Definition newRoomManager : RoomManager := mkRoomManager ∅ ∅ ∅.

(** [sockets.delete(existing.socketId)]; deleting [null] removes nothing. *)
Definition deleteSocket (sid : option string) (m : gmap string string) : gmap string string :=
  match sid with Some s => delete s m | None => m end.

Definition registerSocket (rm : RoomManager) (sessionToken socketId : string)
  : RoomManager * option Session :=
  let '(sessions1, sockets1) :=
    match sessions rm !! sessionToken with
    | Some existing =>
        (<[sessionToken := s_setSocketId (Some socketId) existing]> (sessions rm),
         deleteSocket (s_socketId existing) (sockets rm))
    | None =>
        (<[sessionToken := mkSession (Some socketId) None None]> (sessions rm),
         sockets rm)
    end in
  let rm' := mkRoomManager (rooms rm) sessions1 (<[socketId := sessionToken]> sockets1) in
  (rm', sessions rm' !! sessionToken).

Definition unregisterSocket (rm : RoomManager) (socketId : string)
  : RoomManager * option string :=
  let token := sockets rm !! socketId in
  let sockets1 := delete socketId (sockets rm) in
  let sessions1 :=
    match token with
    | Some t =>
        match sessions rm !! t with
        | Some session =>
            if bool_decide (s_socketId session = Some socketId)
            then <[t := s_setSocketId None session]> (sessions rm)
            else sessions rm
        | None => sessions rm
        end
    | None => sessions rm
    end in
  (mkRoomManager (rooms rm) sessions1 sockets1, token).

Definition getTokenBySocket (rm : RoomManager) (socketId : string) : option string :=
  sockets rm !! socketId.

Definition getRoom (rm : RoomManager) (roomId : string) : option Room :=
  rooms rm !! roomId.

Definition isHost (rm : RoomManager) (roomId : string) (token : option string) : bool :=
  match rooms rm !! roomId with
  | Some room => bool_decide (Some (r_hostToken room) = token)
  | None => false
  end.

Record RoomData := mkRoomData {
  rd_id : option string;
  rd_name : option string;
  rd_host : string;
  rd_hostAvatar : option string;
  rd_scenario : option string;
  rd_wpp : option string
}.

Definition newGame : Game :=
  mkGame None 0 0 None None None None false None None None None.

(** [freshId] stands for [generateId('room_')]. *)
Definition createRoom (rm : RoomManager) (roomData : RoomData)
    (hostSocketId hostToken : string) (freshId : string) (now : Z)
  : RoomManager * Room :=
  let roomId := orDefault (rd_id roomData) freshId in
  let room :=
    {| r_id := roomId;
       r_name := orDefault (rd_name roomData) "Salle de jeu";
       r_host := rd_host roomData;
       r_hostAvatar := orDefault (rd_hostAvatar roomData) "";
       r_hostToken := hostToken;
       r_pendingSpectators := [];
       r_players :=
         [ {| p_token := hostToken; p_socketId := hostSocketId;
              p_name := rd_host roomData;
              p_avatar := orDefault (rd_hostAvatar roomData) "";
              p_isHost := true; p_isReady := true; p_lives := 2;
              p_wordsFound := 0; p_isAlive := true; p_disconnected := false |} ];
       r_gameState := lobby;
       r_settings :=
         {| scenario := orNull (rd_scenario roomData);
            wpp := orNull (rd_wpp roomData);
            maxPlayers := 6; startingLives := 2; extraTurnSeconds := None |};
       r_game := newGame;
       r_createdAt := now;
       r_recentlyLeft := None |} in
  (mkRoomManager (<[roomId := room]> (rooms rm))
     (alter (s_setRoomId (Some roomId)) hostToken (sessions rm))
     (sockets rm),
   room).

Record PlayerData := mkPlayerData {
  pd_name : option string;
  pd_avatar : option string
}.

Inductive JoinResult :=
  | JoinError (error : string)
  | JoinOk (room : Room) (reconnected : bool).

(** The session update of a reconnection. *)
Definition rebindSession (socketId roomId : string) (s : Session) : Session :=
  mkSession (Some socketId) (Some roomId) None.

Definition findRecentlyLeft (room : Room) (token : string) : option Player :=
  match r_recentlyLeft room with
  | None => None
  | Some l => fst <$> (snd <$> list_find (λ e, p_token (fst e) = token) l)
  end.

Definition joinRoom (rm : RoomManager) (roomId : string) (playerData : PlayerData)
    (socketId token : string) : RoomManager * JoinResult :=
  match rooms rm !! roomId with
  | None => (rm, JoinError "Salle introuvable")
  | Some room =>
      match list_find (λ p, p_token p = token) (r_players room) with
      | Some (i, existing) =>
          let room' :=
            r_setPlayers (<[i := p_setSocketId socketId existing]> (r_players room)) room in
          (mkRoomManager (<[roomId := room']> (rooms rm))
             (alter (rebindSession socketId roomId) token (sessions rm))
             (sockets rm),
           JoinOk room' true)
      | None =>
          if maxPlayers (r_settings room) <=? length (r_players room)
          then (rm, JoinError "Salle pleine")
          else if bool_decide (r_gameState room = playing) then
            let isReturningHost := bool_decide (r_hostToken room = token) in
            let wasInRoom := findRecentlyLeft room token in
            if negb isReturningHost && negb (bool_decide (is_Some wasInRoom))
            then (rm, JoinError "Partie en cours — impossible de rejoindre")
            else
              let player :=
                {| p_token := token; p_socketId := socketId;
                   p_name := from_option p_name (orDefault (pd_name playerData) "Joueur") wasInRoom;
                   p_avatar := from_option p_avatar (orDefault (pd_avatar playerData) "") wasInRoom;
                   p_isHost := isReturningHost; p_isReady := true;
                   p_lives := from_option p_lives (startingLives (r_settings room)) wasInRoom;
                   p_wordsFound := from_option p_wordsFound 0 wasInRoom;
                   p_isAlive := from_option p_isAlive true wasInRoom;
                   p_disconnected := false |} in
              let room' := r_setPlayers (r_players room ++ [player]) room in
              (mkRoomManager (<[roomId := room']> (rooms rm))
                 (alter (rebindSession socketId roomId) token (sessions rm))
                 (sockets rm),
               JoinOk room' true)
          else
            let player :=
              {| p_token := token; p_socketId := socketId;
                 p_name := default "" (pd_name playerData);
                 p_avatar := orDefault (pd_avatar playerData) "";
                 p_isHost := false; p_isReady := false;
                 p_lives := startingLives (r_settings room);
                 p_wordsFound := 0; p_isAlive := true; p_disconnected := false |} in
            let room' := r_setPlayers (r_players room ++ [player]) room in
            (mkRoomManager (<[roomId := room']> (rooms rm))
               (alter (s_setRoomId (Some roomId)) token (sessions rm))
               (sockets rm),
             JoinOk room' false)
      end
  end.

Inductive LeaveResult :=
  | LeaveNull
  | LeaveDeleted (roomId : string)
  | LeaveOk (room : Room) (newHost : option string).

(** [room.players[0].isHost = true] together with the three host fields. *)
Definition promoteFirst (room : Room) : Room * option string :=
  match r_players room with
  | next :: rest =>
      (r_setHost (p_token next) (p_name next) (Js.or (p_avatar next) "")
         (r_setPlayers (p_setIsHost true next :: rest) room),
       Some (p_name next))
  | [] => (room, None)
  end.

(** [leaveRoom]; the purge of [_recentlyLeft] that it schedules 60 s later
    is [purgeRecentlyLeft] below. *)
Definition leaveRoom (rm : RoomManager) (token : string) (now : Z)
  : RoomManager * LeaveResult :=
  match sessions rm !! token with
  | None => (rm, LeaveNull)
  | Some session =>
      match s_roomId session with
      | None => (rm, LeaveNull)
      | Some roomId =>
          match rooms rm !! roomId with
          | None =>
              (rm_setSessions (<[token := s_setRoomId None session]> (sessions rm)) rm,
               LeaveNull)
          | Some room =>
              let wasHost := bool_decide (r_hostToken room = token) in
              let leavingPlayer := snd <$> list_find (λ p, p_token p = token) (r_players room) in
              let room1 :=
                match leavingPlayer with
                | Some lp =>
                    if bool_decide (r_gameState room = playing)
                    then r_setRecentlyLeft
                           (Some (default [] (r_recentlyLeft room) ++ [(lp, now)])) room
                    else room
                | None => room
                end in
              let room2 :=
                r_setPlayers (filter (λ p, p_token p ≠ token) (r_players room1)) room1 in
              let sessions' := <[token := s_setRoomId None session]> (sessions rm) in
              match r_players room2 with
              | [] =>
                  (mkRoomManager (delete (r_id room2) (rooms rm)) sessions' (sockets rm),
                   LeaveDeleted (r_id room2))
              | _ :: _ =>
                  let '(room3, newHost) :=
                    if wasHost then promoteFirst room2 else (room2, None) in
                  (mkRoomManager (<[roomId := room3]> (rooms rm)) sessions' (sockets rm),
                   LeaveOk room3 newHost)
              end
          end
      end
  end.

Definition purgeRecentlyLeft (room : Room) (token : string) (now : Z) : Room :=
  match r_recentlyLeft room with
  | None => room
  | Some l =>
      r_setRecentlyLeft
        (Some (filter (λ e, p_token (fst e) ≠ token ∨ (now - snd e < 60000)%Z) l)) room
  end.

Definition markPlayer (v : bool) (rm : RoomManager) (token : string)
  : RoomManager * option Room :=
  match sessions rm !! token with
  | None => (rm, None)
  | Some session =>
      match s_roomId session with
      | None => (rm, None)
      | Some roomId =>
          match rooms rm !! roomId with
          | None => (rm, None)
          | Some room =>
              match list_find (λ p, p_token p = token) (r_players room) with
              | Some (i, player) =>
                  let room' :=
                    r_setPlayers (<[i := p_setDisconnected v player]> (r_players room)) room in
                  (rm_setRooms (<[roomId := room']> (rooms rm)) rm, Some room')
              | None => (rm, Some room)
              end
          end
      end
  end.

Definition markDisconnected := markPlayer true.
Definition markReconnected := markPlayer false.

(** The reset applied to every player by [startGame] and [endGame]. *)
Definition resetForGame (lives : nat) (p : Player) : Player :=
  mkPlayer (p_token p) (p_socketId p) (p_name p) (p_avatar p) (p_isHost p) (p_isReady p)
    lives 0 true (p_disconnected p).

Definition resetForLobby (lives : nat) (p : Player) : Player :=
  mkPlayer (p_token p) (p_socketId p) (p_name p) (p_avatar p) (p_isHost p) false
    lives 0 true (p_disconnected p).

Definition startGame (rm : RoomManager) (roomId : string) (now : Z)
  : RoomManager * option Room :=
  match rooms rm !! roomId with
  | None => (rm, None)
  | Some room =>
      let g := r_game room in
      let g' :=
        mkGame (currentSyllable g) 0 0 (Some now) (timer g) (timerEndTime g)
          (timerTotal g) (paused g) (pausedRemaining g) (pausedAt g)
          (usedSyllables g) (serverControlledUntil g) in
      let room' :=
        r_setPlayers (resetForGame (startingLives (r_settings room)) <$> r_players room)
          (r_setGame g' (r_setGameState playing room)) in
      (rm_setRooms (<[roomId := room']> (rooms rm)) rm, Some room')
  end.

(** ** [endGame] *)

(** The player record built for a pending spectator; it has no
    [disconnected] field, which reads as false. *)
Definition playerOfSpectator (lives : nat) (spec : Spectator) : Player :=
  {| p_token := sp_token spec; p_socketId := sp_socketId spec;
     p_name := sp_name spec; p_avatar := Js.or (sp_avatar spec) "";
     p_isHost := false; p_isReady := false; p_lives := lives;
     p_wordsFound := 0; p_isAlive := true; p_disconnected := false |}.

(** One iteration of [for (const spec of room.pendingSpectators)]: the
    test reads [room.players] as grown so far. *)
Definition promoteSpectator (roomId : string) (lives : nat)
    (acc : list Player * list Player * gmap string Session) (spec : Spectator)
  : list Player * list Player * gmap string Session :=
  let '(players, newPlayers, sess) := acc in
  match list_find (λ p, p_token p = sp_token spec) players with
  | Some _ => acc
  | None =>
      let np := playerOfSpectator lives spec in
      (players ++ [np], newPlayers ++ [np],
       alter (s_setRoomId (Some roomId)) (sp_token spec) sess)
  end.

Record EndResult := mkEndResult {
  er_room : Room;
  er_winner : option Player;
  er_newPlayers : list Player
}.

(** [winner] and [newPlayers] are references into [room.players]: they are
    returned as the final loop over the players leaves them. *)
Definition endGame (rm : RoomManager) (roomId : string)
  : RoomManager * option EndResult :=
  match rooms rm !! roomId with
  | None => (rm, None)
  | Some room =>
      let lives := startingLives (r_settings room) in
      let alive := filter (λ p, p_isAlive p = true ∧ 0 < p_lives p) (r_players room) in
      let winner :=
        match alive with
        | w :: _ => Some w
        | [] => head (r_players room)
        end in
      let '(players1, newPlayers, sessions1) :=
        fold_left (promoteSpectator roomId lives) (r_pendingSpectators room)
          (r_players room, [], sessions rm) in
      let room' :=
        r_setPlayers (resetForLobby lives <$> players1)
          (r_setPendingSpectators []
             (r_setGame (g_setTimer None (r_game room))
                (r_setGameState lobby room))) in
      (mkRoomManager (<[roomId := room']> (rooms rm)) sessions1 (sockets rm),
       Some {| er_room := room';
               er_winner := resetForLobby lives <$> winner;
               er_newPlayers := resetForLobby lives <$> newPlayers |})
  end.

(* ===================================================================== *)
(** * The game coordinator ([server.js])                                  *)
(* ===================================================================== *)

Record Server := mkServer {
  roomManager : RoomManager;
  index : Index;
  wordSubmissions : gmap string (list Z)
}.

Definition sv_setRoomManager (v : RoomManager) (st : Server) : Server :=
  mkServer v (index st) (wordSubmissions st).
Definition sv_setWordSubmissions (v : gmap string (list Z)) (st : Server) : Server :=
  mkServer (roomManager st) (index st) v.

(** [room] is the object stored under [roomId]: a mutation of it is an
    update of the registry at that key. *)
Definition putRoom (roomId : string) (room : Room) (st : Server) : Server :=
  sv_setRoomManager (rm_setRooms (<[roomId := room]> (rooms (roomManager st))) (roomManager st)) st.

(** ** Events *)

Inductive Event :=
  | wordRejected (player : option string) (socketId : string) (word : option string)
      (reason : string)
  | wordAccepted (player socketId word : string) (wordsFound : nat)
  | syllableUpdate (syllable : string) (playerIndex : nat) (player : option Player)
      (roundNumber : nat) (count : option nat)
  | turnChanged (playerIndex : nat) (player : option Player)
  | gamePaused (reason : string) (remaining total : Z)
  | gameResumed (remaining total : Z) (syllable : option string) (playerIndex : nat)
      (player : option Player) (roundNumber : nat)
  | chatMessage (sender senderSocketId message : string) (timestamp : Z)
      (type avatar : string) (replyTo staffRole : option string).

(** [socket.emit] and [io.to(roomId).emit]. *)
Inductive Target := toSocket (socketId : string) | toRoom (roomId : string).

Definition Emit : Type := Target * Event.

(** ** [escapeHtml] *)

Definition escapeHtml (str : string) : string :=
  Js.replaceAll "'" "&#x27;"
    (Js.replaceAll (ascii_of_nat 34) "&quot;"
       (Js.replaceAll ">" "&gt;"
          (Js.replaceAll "<" "&lt;"
             (Js.replaceAll "&" "&amp;" str)))).

(** ** [pickServerSyllable] *)

(** [scenario ? String(scenario).trim().toLowerCase() : ''] *)
Definition scenarioKey (scenario : option string) : string :=
  match scenario with
  | Some s => if Js.truthy s then Js.toLowerCase (Js.trim s) else ""
  | None => ""
  end.

Definition allowedLengths (scenario : option string) : list nat :=
  let sc := scenarioKey scenario in
  if String.eqb sc "4 lettres" then [4]
  else if String.eqb sc "sub8" || String.eqb sc "sub50" then [2; 3]
  else [2; 3].

(** [syllableCounts[L] && syllableCounts[L].size > 0] *)
Definition hasData (idx : Index) (L : nat) : bool :=
  match syllableCounts idx !! L with
  | Some (_ :: _) => true
  | _ => false
  end.

(** The bound of the scenario's count filter [c => c <= N], if any. *)
Definition countFilter (scenario : option string) : option nat :=
  let sc := scenarioKey scenario in
  if String.eqb sc "sub8" then Some 8
  else if String.eqb sc "sub50" then Some 50
  else None.

(** [!usedSyllables || !usedSyllables.has(s)] *)
Definition notUsed (usedSyllables : option (list string)) (s : string) : bool :=
  match usedSyllables with
  | None => true
  | Some u => negb (Js.set_has s u)
  end.

(** [arr[Math.floor(Math.random() * arr.length)]] *)
Definition randomPick {A} (d : A) (arr : list A) (r : nat) : A :=
  nth (r mod length arr) arr d.

(** The first length of [ALL_LENGTHS] with data, when no allowed length
    has any: one of its keys, or ['RE']. *)
Fixpoint pickAnyLength (idx : Index) (lengths : list nat) (r : nat) : string :=
  match lengths with
  | [] => "RE"
  | fl :: rest =>
      if hasData idx fl
      then randomPick "" (fst <$> default [] (syllableCounts idx !! fl)) r
      else pickAnyLength idx rest r
  end.

(** [r1] and [r2] are the two draws.  Without a count filter the draw is
    weighted by [sqrt(count)]; every weight is positive, so the loop can
    return the syllable of any entry and of no other: the second draw
    stands for its outcome.  The result is the syllable together with
    [usedSyllables], which the function may have cleared. *)
Definition pickServerSyllable (idx : Index) (usedSyllables : option (list string))
    (scenario : option string) (r1 r2 : nat) : string * option (list string) :=
  let availableLengths := List.filter (hasData idx) (allowedLengths scenario) in
  match availableLengths with
  | [] => (pickAnyLength idx [2; 3; 4] r1, usedSyllables)
  | _ :: _ =>
      let L := randomPick 0 availableLengths r1 in
      let map := default [] (syllableCounts idx !! L) in
      let entries0 := List.filter (λ e, notUsed usedSyllables (fst e)) map in
      match countFilter scenario with
      | Some bound =>
          let entries1 := List.filter (λ e, snd e <=? bound) entries0 in
          let '(entries2, used') :=
            match entries1 with
            | [] => (List.filter (λ e, snd e <=? bound) map, (λ _, []) <$> usedSyllables)
            | _ :: _ => (entries1, usedSyllables)
            end in
          let entries3 := match entries2 with [] => map | _ :: _ => entries2 end in
          (fst (randomPick ("", 0) entries3 r2), used')
      | None =>
          let entries3 := match entries0 with [] => map | _ :: _ => entries0 end in
          (fst (randomPick ("", 0) entries3 r2), usedSyllables)
      end
  end.

(** ** The turn timer *)

Definition startRoomTimer (st : Server) (roomId : string) (durationMs now : Z) : Server :=
  match getRoom (roomManager st) roomId with
  | None => st
  | Some room =>
      let g := r_game room in
      let effectiveDuration :=
        match pausedRemaining g with
        | Some r => if (0 <? r)%Z then r else durationMs
        | None => durationMs
        end in
      let endTime := (now + effectiveDuration)%Z in
      let g' :=
        mkGame (currentSyllable g) (currentPlayerIndex g) (roundNumber g) (startTime g)
          (Some (mkTimer endTime durationMs)) (Some endTime) (Some durationMs)
          (paused g) None (pausedAt g) (usedSyllables g) (serverControlledUntil g) in
      putRoom roomId (r_setGame g' room) st
  end.

(** [x || d] on a number. *)
Definition orZ (o : option Z) (d : Z) : Z :=
  match o with
  | Some z => if (z =? 0)%Z then d else z
  | None => d
  end.

(** [room.players[i] || room.players[0]] *)
Definition playerAtOrFirst (room : Room) (i : nat) : option Player :=
  match r_players room !! i with
  | Some p => Some p
  | None => head (r_players room)
  end.

Definition pauseRoomGame (st : Server) (roomId reason : string) (now : Z)
  : Server * list Emit :=
  match getRoom (roomManager st) roomId with
  | None => (st, [])
  | Some room =>
      let g := r_game room in
      if bool_decide (r_gameState room ≠ playing) || paused g then (st, [])
      else
        let remaining :=
          match timerEndTime g with
          | Some e => if (e =? 0)%Z then 0%Z else Z.max 0 (e - now)
          | None => 0%Z
          end in
        let g' :=
          mkGame (currentSyllable g) (currentPlayerIndex g) (roundNumber g) (startTime g)
            (timer g) (timerEndTime g) (timerTotal g) true (Some remaining) (Some now)
            (usedSyllables g) (serverControlledUntil g) in
        (putRoom roomId (r_setGame g' room) st,
         [(toRoom roomId,
           gamePaused (Js.or reason "Joueur déconnecté") remaining (orZ (timerTotal g) 8000))])
  end.

Definition resumeRoomGame (st : Server) (roomId : string) (now : Z)
  : Server * list Emit :=
  match getRoom (roomManager st) roomId with
  | None => (st, [])
  | Some room =>
      let g := r_game room in
      if bool_decide (r_gameState room ≠ playing) || negb (paused g) then (st, [])
      else
        let remaining := orZ (pausedRemaining g) 3000 in
        let total := orZ (timerTotal g) 8000 in
        let endTime := (now + remaining)%Z in
        let g' :=
          mkGame (currentSyllable g) (currentPlayerIndex g) (roundNumber g) (startTime g)
            (Some (mkTimer endTime total)) (Some endTime) (timerTotal g) false None
            (pausedAt g) (usedSyllables g) (serverControlledUntil g) in
        (putRoom roomId (r_setGame g' room) st,
         [(toRoom roomId,
           gameResumed remaining total (currentSyllable g) (currentPlayerIndex g)
             (playerAtOrFirst room (currentPlayerIndex g)) (roundNumber g))])
  end.

(** ** Rounds and turns *)

Definition startNextRound (st : Server) (roomId : string) (now : Z) (r1 r2 : nat)
  : Server * list Emit :=
  match getRoom (roomManager st) roomId with
  | None => (st, [])
  | Some room =>
      if bool_decide (r_gameState room ≠ playing) then (st, [])
      else
        let g := r_game room in
        let used := Some (default [] (usedSyllables g)) in
        let scenario := orNull (scenario (r_settings room)) in
        let '(newSyl, used') := pickServerSyllable (index st) used scenario r1 r2 in
        let round := roundNumber g + 1 in
        let g' :=
          mkGame (Some newSyl) (currentPlayerIndex g) round (startTime g)
            (timer g) (timerEndTime g) (timerTotal g) (paused g) (pausedRemaining g)
            (pausedAt g) (Js.set_add newSyl <$> used') (Some (now + 3000)%Z) in
        let defaultTimerMs :=
          ((8 + Z.max 0 (orZ (extraTurnSeconds (r_settings room)) 0)) * 1000)%Z in
        let st1 := putRoom roomId (r_setGame g' room) st in
        (startRoomTimer st1 roomId defaultTimerMs now,
         [(toRoom roomId,
           syllableUpdate newSyl (currentPlayerIndex g)
             (playerAtOrFirst room (currentPlayerIndex g)) round
             (getSyllableCount (index st) newSyl))])
  end.

(** [!p.isAlive || p.lives <= 0 || p.disconnected] *)
Definition skipped (p : Player) : bool :=
  negb (p_isAlive p) || (p_lives p <=? 0) || p_disconnected p.

(** The [while] loop of [advanceToNextAlivePlayer]; it leaves through
    [break] after at most [players.length + 1] iterations, which is the
    fuel it is given. *)
Fixpoint nextAlive (players : list Player) (fuel next attempts : nat) : nat :=
  match fuel with
  | 0 => next
  | S fuel' =>
      match players !! next with
      | Some p =>
          if skipped p then
            let next' := (next + 1) mod length players in
            if length players <? attempts + 1 then next'
            else nextAlive players fuel' next' (attempts + 1)
          else next
      | None => next
      end
  end.

Definition advanceToNextAlivePlayer (st : Server) (roomId : string)
  : Server * list Emit :=
  match getRoom (roomManager st) roomId with
  | None => (st, [])
  | Some room =>
      if bool_decide (r_gameState room ≠ playing) then (st, [])
      else
        match List.filter (λ p, negb (skipped p)) (r_players room) with
        | [] => (st, [])
        | _ :: _ =>
            let n := length (r_players room) in
            let next :=
              nextAlive (r_players room) (S n)
                ((currentPlayerIndex (r_game room) + 1) mod n) 0 in
            (putRoom roomId (r_setGame (g_setCurrentPlayerIndex next (r_game room)) room) st,
             [(toRoom roomId, turnChanged next (r_players room !! next))])
        end
  end.

(** ** [socket.on('submitWord', ...)] *)

Record SubmitWord := mkSubmitWord {
  sw_roomId : string;
  sw_word : string;
  sw_syllable : string
}.

Definition quote : string := String (ascii_of_nat 34) EmptyString.

(** [socketId] is [socket.id] and [token] is [getToken()], the token this
    socket last registered, if any. *)
Definition on_submitWord (st : Server) (socketId : string) (token : option string)
    (msg : SubmitWord) (now : Z) (r1 r2 : nat) : Server * list Emit :=
  let roomId := sw_roomId msg in
  match getRoom (roomManager st) roomId, token with
  | Some room, Some tok =>
      if bool_decide (r_gameState room ≠ playing) then (st, [])
      else
        match list_find (λ p, p_token p = tok) (r_players room) with
        | None => (st, [])
        | Some (pi, player) =>
            if negb (p_isAlive player) then (st, [])
            else
              (* rate limiting *)
              let ws1 :=
                match wordSubmissions st !! tok with
                | Some _ => wordSubmissions st
                | None => <[tok := []]> (wordSubmissions st)
                end in
              let subs :=
                filter (λ t, (now - t < 800)%Z) (default [] (ws1 !! tok)) in
              match subs with
              | _ :: _ =>
                  (sv_setWordSubmissions ws1 st,
                   [(toSocket socketId, wordRejected None socketId None "Trop rapide!")])
              | [] =>
                  let st1 := sv_setWordSubmissions (<[tok := subs ++ [now]]> ws1) st in
                  (* whose turn *)
                  let currentPlayer :=
                    r_players room
                      !! (currentPlayerIndex (r_game room) mod length (r_players room)) in
                  let hostFlag := isHost (roomManager st) roomId token in
                  let wrongTurn :=
                    match currentPlayer with
                    | Some cp =>
                        if bool_decide (p_token cp ≠ tok) then
                          let isBotTurn :=
                            hostFlag &&
                            negb (existsb (λ p, bool_decide (p_token p = p_token cp))
                                    (r_players room)) in
                          negb isBotTurn
                        else false
                    | None => false
                    end in
                  if wrongTurn then
                    (st1, [(toSocket socketId,
                            wordRejected None socketId None "Pas votre tour")])
                  else
                    let player1 := p_setSocketId socketId player in
                    let room1 := r_setPlayers (<[pi := player1]> (r_players room)) room in
                    let st2 := putRoom roomId room1 st1 in
                    let wordUpper := Js.trim (Js.toUpperCase (sw_word msg)) in
                    let sylUpper :=
                      Js.trim (Js.toUpperCase (default "" (currentSyllable (r_game room)))) in
                    if negb (Js.truthy wordUpper) then
                      (st2, [(toSocket socketId,
                              wordRejected None socketId None "Mot vide")])
                    else if Js.truthy sylUpper && negb (Js.includes sylUpper wordUpper) then
                      (st2, [(toSocket socketId,
                              wordRejected None socketId None
                                ("Le mot ne contient pas " +:+ quote +:+ sylUpper +:+ quote))])
                    else if dictHas (index st) wordUpper then
                      let player2 := p_setWordsFound (p_wordsFound player1 + 1) player1 in
                      let room2 :=
                        r_setGame (g_setTimer None (r_game room1))
                          (r_setPlayers (<[pi := player2]> (r_players room1)) room1) in
                      let st3 := putRoom roomId room2 st2 in
                      let accepted :=
                        (toRoom roomId,
                         wordAccepted (p_name player2) socketId wordUpper
                           (p_wordsFound player2)) in
                      let '(st4, ev1) := advanceToNextAlivePlayer st3 roomId in
                      let '(st5, ev2) := startNextRound st4 roomId now r1 r2 in
                      (st5, accepted :: ev1 ++ ev2)
                    else
                      (st2, [(toRoom roomId,
                              wordRejected (Some (p_name player1)) socketId (Some wordUpper)
                                "Mot non dans le dictionnaire")])
              end
        end
  | _, _ => (st, [])
  end.

(** [socket.on('disconnect', ...)], as far as the submission record goes:
    [wordSubmissions.delete(token)]. *)
Definition on_disconnect_submissions (st : Server) (token : option string) : Server :=
  match token with
  | Some tok => sv_setWordSubmissions (delete tok (wordSubmissions st)) st
  | None => st
  end.

(** ** [socket.on('chatMessage', ...)] *)






(* ===================================================================== *)
(** * Specification predicates                                            *)
(* ===================================================================== *)

(** ** Dictionary *)

(** The lines a failed read delivered before it failed. *)
Definition delivered (f : DictFile) : list string :=
  match f with
  | FileAbsent => []
  | FileLines lines => lines
  | FileError lines _ => lines
  end.



(** [s] occurs in [w]: [s] is made of letters only and stands at some
    offset of some hyphen-separated part of [w]. *)
Definition occursIn (s w : string) : Prop :=
  isAllLetters s = true ∧
  Exists
    (λ part,
       String.length s ≤ String.length part ∧
       Exists (λ i, String.substring i (String.length s) part = s)
         (seq 0 (S (String.length part - String.length s))))
    (wordParts w).

Global Instance occursIn_dec s w : Decision (occursIn s w).
Proof. unfold occursIn. apply _. Defined.


(** ** Rooms *)

(** The tokens of the players flagged as host, in the players' order. *)
Definition hostTokens (players : list Player) : list string :=
  p_token <$> filter (λ p, p_isHost p = true) players.

(** Exactly one player is flagged as host, and it carries the room's
    [hostToken]. *)
Definition hostInv (room : Room) : Prop :=
  hostTokens (r_players room) = [r_hostToken room].

Definition roomsInv (rm : RoomManager) : Prop :=
  ∀ roomId room, rooms rm !! roomId = Some room → hostInv room.

(** The membership mutations of the registry. *)
Inductive membership_step (rm : RoomManager) : RoomManager → Prop :=
  | step_createRoom roomData hostSocketId hostToken freshId now :
      membership_step rm (createRoom rm roomData hostSocketId hostToken freshId now).1
  | step_joinRoom roomId playerData socketId token :
      membership_step rm (joinRoom rm roomId playerData socketId token).1
  | step_leaveRoom token now :
      membership_step rm (leaveRoom rm token now).1
  | step_endGame roomId :
      membership_step rm (endGame rm roomId).1.

(** The pending spectators that [endGame] turns into players: those whose
    token is neither a player's nor that of an earlier pending spectator. *)
Fixpoint promoted (tokens : list string) (pending : list Spectator) : list Spectator :=
  match pending with
  | [] => []
  | spec :: rest =>
      if decide (sp_token spec ∈ tokens) then promoted tokens rest
      else spec :: promoted (tokens ++ [sp_token spec]) rest
  end.

(** ** Events *)

Definition isAccepted (e : Emit) : bool :=
  match snd e with
  | wordAccepted _ _ _ _ => true
  | _ => false
  end.

Definition tooFast (socketId : string) : Emit :=
  (toSocket socketId, wordRejected None socketId None "Trop rapide!").

(* ===================================================================== *)
(** * Example states                                                      *)
(* ===================================================================== *)

Definition exPath : string := "dictionary.txt".

(** A dictionary of three words. *)
Definition exIndex : Index :=
  Eval vm_compute in prepare initialIndex exPath (FileLines ["abc"; "bonjour"; "abri"]).

Definition exHostData : RoomData :=
  mkRoomData (Some "r1") (Some "Salon") "Ana" None None None.

(** Ana creates room [r1]; Bob joins it. *)
Definition exLobby : RoomManager :=
  Eval vm_compute in
  let rm1 := (registerSocket newRoomManager "tokA" "sockA").1 in
  let rm2 := (registerSocket rm1 "tokB" "sockB").1 in
  let rm3 := (createRoom rm2 exHostData "sockA" "tokA" "room_0" 0).1 in
  (joinRoom rm3 "r1" (mkPlayerData (Some "Bob") None) "sockB" "tokB").1.

(** Room [r1] at its capacity of six players, with one spectator waiting. *)
Definition exFullRoom : Room :=
  Eval vm_compute in
  let mk t := mkPlayer t ("sock" +:+ t) t "" (String.eqb t "t1") true 2 0 true false in
  mkRoom "r1" "Salon" "t1" "" "t1"
    [mkSpectator "t7" "sock7" "Zoe" ""]
    (mk <$> ["t1"; "t2"; "t3"; "t4"; "t5"; "t6"])
    playing (mkSettings None None 6 2 None) newGame 0 None.

Definition exFullManager : RoomManager :=
  Eval vm_compute in mkRoomManager {["r1" := exFullRoom]} ∅ ∅.

(** The game of room [r1] is started at time 0 and its first round draws
    the first syllable of length 2, [AB]. *)
Definition exServer : Server :=
  Eval vm_compute in mkServer (startGame exLobby "r1" 0).1 exIndex ∅.

Definition exPlaying : Server :=
  Eval vm_compute in (startNextRound exServer "r1" 0 0 0).1.

(** The current player's socket is lost 7 s into the 8 s turn. *)
Definition exPaused : Server :=
  Eval vm_compute in (pauseRoomGame exPlaying "r1" "" 7000).1.



(** ** The build seen one length at a time

    The sets of [seenSylsInWord] and the maps of [syllableCounts] for
    different lengths do not interact; these are the set and the map of a
    single length [L]. *)











(** ** Sequences of submissions *)

(** One [submitWord] event: the socket it arrives on, the token that
    socket registered, the payload, the time and the two draws. *)
Record SubmitEvent := mkSubmitEvent {
  se_socketId : string;
  se_token : option string;
  se_msg : SubmitWord;
  se_now : Z;
  se_r1 : nat;
  se_r2 : nat
}.

Definition runSubmit (st : Server) (ev : SubmitEvent) : Server * list Emit :=
  on_submitWord st (se_socketId ev) (se_token ev) (se_msg ev) (se_now ev)
    (se_r1 ev) (se_r2 ev).

Definition runSubmits (st : Server) (evs : list SubmitEvent) : Server :=
  fold_left (λ s ev, (runSubmit s ev).1) evs st.

(** The guards a submission passes before the rate limit is looked at:
    the room exists and is in play, the token is that of one of its
    players, and this player is alive. *)
Definition submitGuards (st : Server) (tok roomId : string) : bool :=
  match getRoom (roomManager st) roomId with
  | Some room =>
      bool_decide (r_gameState room = playing) &&
      match list_find (λ p, p_token p = tok) (r_players room) with
      | Some (_, player) => p_isAlive player
      | None => false
      end
  | None => false
  end.

Definition exAna (word : string) (now : Z) : SubmitEvent :=
  mkSubmitEvent "sockA" (Some "tokA") (mkSubmitWord "r1" word "") now 0 0.

Definition exBob (word : string) (now : Z) : SubmitEvent :=
  mkSubmitEvent "sockB" (Some "tokB") (mkSubmitWord "r1" word "") now 0 0.

(* ===================================================================== *)
(** * Further handlers of the coordinator ([server.js])                   *)
(* ===================================================================== *)

(** ** The per-path rate limiter *)

Record Bucket := mkBucket { b_ts : Z; b_count : nat }.

Inductive Limited :=
  | passed
  | rateLimited (retryAfter : Z).

Definition RATE_LIMIT_WINDOW_MS : Z := 60000.

(** [`${ip}:${req.path}`] *)
Definition bucketKey (ip path : string) : string := ip +:+ ":" +:+ path.

(** [Math.ceil(ms / 1000)] *)
Definition ceilSeconds (ms : Z) : Z := (- ((- ms) / 1000))%Z.

(** [rateLimitMiddleware], for the key of the request; [max] is
    [RATE_LIMIT_MAX], read from the environment (120 by default).  The
    result tells whether [next()] was called or the request was answered
    429 with the given [Retry-After]. *)
Definition rateLimitMiddleware (max : nat) (rateBuckets : gmap string Bucket)
    (key : string) (now : Z) : gmap string Bucket * Limited :=
  match rateBuckets !! key with
  | None => (<[key := mkBucket now 1]> rateBuckets, passed)
  | Some bucket =>
      if (now - b_ts bucket <? RATE_LIMIT_WINDOW_MS)%Z then
        let bucket' := mkBucket (b_ts bucket) (b_count bucket + 1) in
        if max <? b_count bucket'
        then (<[key := bucket']> rateBuckets,
              rateLimited (ceilSeconds (b_ts bucket + RATE_LIMIT_WINDOW_MS - now)))
        else (<[key := bucket']> rateBuckets, passed)
      else (<[key := mkBucket now 1]> rateBuckets, passed)
  end.

(** [pruneBuckets]: a bucket is dropped once it is older than five
    windows. *)
Definition pruneBuckets (rateBuckets : gmap string Bucket) (now : Z) : gmap string Bucket :=
  filter (λ kb, ¬ (now - b_ts kb.2 > RATE_LIMIT_WINDOW_MS * 5)%Z) rateBuckets.

(** The requests of one key, in order of arrival. *)
Fixpoint rateLimitRun (max : nat) (rateBuckets : gmap string Bucket) (key : string)
    (times : list Z) : list Limited :=
  match times with
  | [] => []
  | now :: rest =>
      let '(b, d) := rateLimitMiddleware max rateBuckets key now in
      d :: rateLimitRun max b key rest
  end.

Definition isPassed (d : Limited) : bool :=
  match d with passed => true | rateLimited _ => false end.

(** ** More of the registry ([roomManager.js]) *)

Definition getSessionBySocket (rm : RoomManager) (socketId : string) : option Session :=
  match sockets rm !! socketId with
  | Some token => if Js.truthy token then sessions rm !! token else None
  | None => None
  end.


(** ** More field updates *)

Definition p_setLives (v : nat) (p : Player) : Player :=
  mkPlayer (p_token p) (p_socketId p) (p_name p) (p_avatar p) (p_isHost p) (p_isReady p)
    v (p_wordsFound p) (p_isAlive p) (p_disconnected p).
Definition p_setIsAlive (v : bool) (p : Player) : Player :=
  mkPlayer (p_token p) (p_socketId p) (p_name p) (p_avatar p) (p_isHost p) (p_isReady p)
    (p_lives p) (p_wordsFound p) v (p_disconnected p).
Definition p_setIsReady (v : bool) (p : Player) : Player :=
  mkPlayer (p_token p) (p_socketId p) (p_name p) (p_avatar p) (p_isHost p) v
    (p_lives p) (p_wordsFound p) (p_isAlive p) (p_disconnected p).
Definition g_setServerControlledUntil (v : option Z) (g : Game) : Game :=
  mkGame (currentSyllable g) (currentPlayerIndex g) (roundNumber g) (startTime g)
    (timer g) (timerEndTime g) (timerTotal g) (paused g) (pausedRemaining g) (pausedAt g)
    (usedSyllables g) v.
Definition r_setSettings (v : Settings) (r : Room) : Room :=
  mkRoom (r_id r) (r_name r) (r_host r) (r_hostAvatar r) (r_hostToken r)
    (r_pendingSpectators r) (r_players r) (r_gameState r) v (r_game r)
    (r_createdAt r) (r_recentlyLeft r).

(** ** [handleLoseLife] *)

(** Only the state is represented: the broadcasts of this function
    ([playerLostLife], [playerEliminated], [gameOver], the system messages
    and the room list) read the state and do not change it.  [lives - 1]
    on naturals is [Math.max(0, lives - 1)]. *)
Definition handleLoseLife (st : Server) (roomId playerSocketId : string) (now : Z)
    (r1 r2 : nat) : Server :=
  match getRoom (roomManager st) roomId with
  | None => st
  | Some room =>
      if bool_decide (r_gameState room ≠ playing) then st
      else if paused (r_game room) then st
      else
        match list_find (λ p, p_socketId p = playerSocketId) (r_players room) with
        | None => st
        | Some (i, player) =>
            if negb (p_isAlive player) then st
            else
              let player1 := p_setLives (p_lives player - 1) player in
              if p_lives player1 <=? 0 then
                let player2 := p_setIsAlive false player1 in
                let room1 := r_setPlayers (<[i := player2]> (r_players room)) room in
                let st1 := putRoom roomId room1 st in
                let alivePlayers :=
                  List.filter (λ p, p_isAlive p && (0 <? p_lives p)) (r_players room1) in
                if length alivePlayers <=? 1 then
                  sv_setRoomManager (endGame (roomManager st1) roomId).1 st1
                else
                  (startNextRound (advanceToNextAlivePlayer st1 roomId).1 roomId now r1 r2).1
              else
                let room1 := r_setPlayers (<[i := player1]> (r_players room)) room in
                let st1 := putRoom roomId room1 st in
                (startNextRound (advanceToNextAlivePlayer st1 roomId).1 roomId now r1 r2).1
        end
  end.

(** ** [socket.on('newSyllable', ...)] *)

(** [playerIndex] is present when the payload carries a number, taken to
    be a natural number. *)
Record NewSyllable := mkNewSyllable {
  ns_roomId : string;
  ns_playerIndex : option nat
}.

Definition on_newSyllable (st : Server) (token : option string) (msg : NewSyllable)
    (now : Z) (r1 r2 : nat) : Server * list Emit :=
  let roomId := ns_roomId msg in
  match getRoom (roomManager st) roomId with
  | None => (st, [])
  | Some room =>
      if bool_decide (r_gameState room ≠ playing) then (st, [])
      else if negb (isHost (roomManager st) roomId token) then (st, [])
      else
        let guard := serverControlledUntil (r_game room) in
        if negb (orZ guard 0 =? 0)%Z && (now <? orZ guard 0)%Z then
          (putRoom roomId
             (r_setGame (g_setServerControlledUntil (Some 0%Z) (r_game room)) room) st,
           [])
        else
          let room1 :=
            match ns_playerIndex msg with
            | Some i => r_setGame (g_setCurrentPlayerIndex i (r_game room)) room
            | None => room
            end in
          startNextRound (putRoom roomId room1 st) roomId now r1 r2
  end.

(** ** [socket.on('updateSettings', ...)] and [socket.on('toggleReady', ...)] *)

Inductive Notice :=
  | settingsUpdated (settings : Settings)
  | playerReadyChanged (socketId : string) (isReady : bool) (room : Room).

(** A field is [None] when the payload leaves it undefined; the two
    numbers are taken to be integers, zero being falsy. *)
Record SettingsPatch := mkSettingsPatch {
  sp_startingLives : option Z;
  sp_extraTurnSeconds : option Z;
  sp_scenario : option (option string);
  sp_wpp : option (option string)
}.

Definition on_updateSettings (st : Server) (token : option string) (roomId : string)
    (patch : SettingsPatch) : Server * list (Target * Notice) :=
  match token with
  | None => (st, [])
  | Some tok =>
      if negb (Js.truthy tok) || negb (isHost (roomManager st) roomId token) then (st, [])
      else
        match getRoom (roomManager st) roomId with
        | None => (st, [])
        | Some room =>
            let s := r_settings room in
            let lives :=
              match sp_startingLives patch with
              | Some v => if (v =? 0)%Z then startingLives s
                          else Z.to_nat (Z.max 1 (Z.min 5 v))
              | None => startingLives s
              end in
            let extra :=
              match sp_extraTurnSeconds patch with
              | Some v => Some (Z.max 0 (Z.min 10 v))
              | None => extraTurnSeconds s
              end in
            let s' :=
              mkSettings (default (scenario s) (sp_scenario patch))
                (default (wpp s) (sp_wpp patch)) (maxPlayers s) lives extra in
            (putRoom roomId (r_setSettings s' room) st,
             [(toRoom roomId, settingsUpdated s')])
        end
  end.

Definition on_toggleReady (st : Server) (socketId : string) (token : option string)
    (roomId : string) : Server * list (Target * Notice) :=
  match getRoom (roomManager st) roomId, token with
  | Some room, Some tok =>
      match list_find (λ p, p_token p = tok) (r_players room) with
      | Some (i, player) =>
          if p_isHost player then (st, [])
          else
            let player' := p_setIsReady (negb (p_isReady player)) player in
            let room' := r_setPlayers (<[i := player']> (r_players room)) room in
            (putRoom roomId room' st,
             [(toRoom roomId, playerReadyChanged socketId (p_isReady player') room')])
      | None => (st, [])
      end
  | _, _ => (st, [])
  end.

(** ** [socket.on('startGame', ...)] *)

(** [if (sess && sess.socketId) p.socketId = sess.socketId] *)
Definition refreshSocket (rm : RoomManager) (p : Player) : Player :=
  match sessions rm !! p_token p with
  | Some sess =>
      match s_socketId sess with
      | Some s => if Js.truthy s then p_setSocketId s p else p
      | None => p
      end
  | None => p
  end.

Definition s_setScenario (v : option string) (s : Settings) : Settings :=
  mkSettings v (wpp s) (maxPlayers s) (startingLives s) (extraTurnSeconds s).

(** [scenario] is [data.scenario], absent for the old payload that is a
    bare room id.  Only the state is represented. *)
Definition on_startGame (st : Server) (token : option string) (roomId : string)
    (scenario : option string) (now : Z) : Server :=
  match token with
  | None => st
  | Some tok =>
      if negb (Js.truthy tok) || negb (isHost (roomManager st) roomId token) then st
      else
        let st1 :=
          match getRoom (roomManager st) roomId, orNull scenario with
          | Some room, Some sc =>
              putRoom roomId (r_setSettings (s_setScenario (Some sc) (r_settings room)) room) st
          | _, _ => st
          end in
        match startGame (roomManager st1) roomId now with
        | (rm', Some gameRoom) =>
            let lives :=
              if startingLives (r_settings gameRoom) =? 0 then 2
              else startingLives (r_settings gameRoom) in
            let players :=
              (λ p, refreshSocket rm' (p_setIsAlive true (p_setLives lives p)))
                <$> r_players gameRoom in
            sv_setRoomManager
              (rm_setRooms (<[roomId := r_setPlayers players gameRoom]> (rooms rm')) rm') st1
        | (rm', None) => sv_setRoomManager rm' st1
        end
  end.

(** ** The clean-up interval *)

Definition ROOM_TIMEOUT : Z := 60 * 60 * 1000.

(** A room is removed when it has no player, or is finished and older
    than an hour. *)
Definition abandoned (now : Z) (room : Room) : Prop :=
  length (r_players room) = 0 ∨
  (r_gameState room = finished ∧ (now - r_createdAt room > ROOM_TIMEOUT)%Z).

#[global] Instance abandoned_dec now room : Decision (abandoned now room).
Proof. unfold abandoned. apply _. Defined.

Definition cleanupRooms (st : Server) (now : Z) : Server :=
  sv_setRoomManager
    (rm_setRooms (filter (λ kr, ¬ abandoned now kr.2) (rooms (roomManager st)))
       (roomManager st)) st.

(** [session._lastDisconnectTime = disconnectTime], in the handler of
    [disconnect]. *)
Definition stampDisconnect (st : Server) (token : string) (now : Z) : Server :=
  match sessions (roomManager st) !! token with
  | Some session =>
      match s_roomId session with
      | Some roomId =>
          if Js.truthy roomId then
            match getRoom (roomManager st) roomId with
            | Some _ =>
                sv_setRoomManager
                  (rm_setSessions
                     (<[token := s_setLastDisconnectTime (Some now) session]>
                        (sessions (roomManager st))) (roomManager st)) st
            | None => st
            end
          else st
      | None => st
      end
  | None => st
  end.

(** [room.game.timer = null], after [clearInterval]. *)
Definition clearTimer (st : Server) (roomId : string) : Server :=
  match getRoom (roomManager st) roomId with
  | Some room => putRoom roomId (r_setGame (g_setTimer None (r_game room)) room) st
  | None => st
  end.

(* ===================================================================== *)
(** * Further specification predicates                                    *)
(* ===================================================================== *)

(** The four characters [escapeHtml] must not let through. *)
Definition isMarkup (c : ascii) : bool :=
  Ascii.eqb c "<" || Ascii.eqb c ">" || Ascii.eqb c (ascii_of_nat 34) || Ascii.eqb c "'".


(** No two players of the room carry the same token. *)
Definition tokensInv (room : Room) : Prop := NoDup (p_token <$> r_players room).

(** A player without lives is not alive. *)
Definition deadIfNoLives (p : Player) : Prop := p_lives p = 0 → p_isAlive p = false.

(** This holds of the players of the room and of those who left it
    during the game. *)
Definition livesInv (room : Room) : Prop :=
  Forall deadIfNoLives (r_players room) ∧
  Forall (λ e, deadIfNoLives (fst e)) (default [] (r_recentlyLeft room)).

(** The bounds [updateSettings] enforces. *)
Definition settingsInv (s : Settings) : Prop :=
  1 ≤ startingLives s ≤ 5 ∧
  match extraTurnSeconds s with
  | Some v => (0 ≤ v ≤ 10)%Z
  | None => True
  end.


(** The methods of [RoomManager] that change the registry. *)
Inductive registry_step (rm : RoomManager) : RoomManager → Prop :=
  | reg_registerSocket sessionToken socketId :
      registry_step rm (registerSocket rm sessionToken socketId).1
  | reg_unregisterSocket socketId :
      registry_step rm (unregisterSocket rm socketId).1
  | reg_membership rm' :
      membership_step rm rm' → registry_step rm rm'
  | reg_markDisconnected token :
      registry_step rm (markDisconnected rm token).1
  | reg_markReconnected token :
      registry_step rm (markReconnected rm token).1
  | reg_startGame roomId now :
      registry_step rm (startGame rm roomId now).1.

(** [setTimeout(() => { room._recentlyLeft = ... }, 60000)], on the room
    stored under [roomId]. *)
Definition purgeStep (st : Server) (roomId token : string) (now : Z) : Server :=
  match getRoom (roomManager st) roomId with
  | Some room => putRoom roomId (purgeRecentlyLeft room token now) st
  | None => st
  end.

(** The operations of the coordinator on its state: the methods of the
    registry, the timer functions, the handlers of the game events and
    the writes that the other handlers and the timers make on a room or a
    session.  The handlers that are not listed are sequences of these. *)
Inductive server_step (st : Server) : Server → Prop :=
  | sv_registry rm' :
      registry_step (roomManager st) rm' → server_step st (sv_setRoomManager rm' st)
  | sv_purge roomId token now :
      server_step st (purgeStep st roomId token now)
  | sv_startRoomTimer roomId durationMs now :
      server_step st (startRoomTimer st roomId durationMs now)
  | sv_pauseRoomGame roomId reason now :
      server_step st (pauseRoomGame st roomId reason now).1
  | sv_resumeRoomGame roomId now :
      server_step st (resumeRoomGame st roomId now).1
  | sv_startNextRound roomId now r1 r2 :
      server_step st (startNextRound st roomId now r1 r2).1
  | sv_advanceToNextAlivePlayer roomId :
      server_step st (advanceToNextAlivePlayer st roomId).1
  | sv_handleLoseLife roomId playerSocketId now r1 r2 :
      server_step st (handleLoseLife st roomId playerSocketId now r1 r2)
  | sv_newSyllable token msg now r1 r2 :
      server_step st (on_newSyllable st token msg now r1 r2).1
  | sv_updateSettings token roomId patch :
      server_step st (on_updateSettings st token roomId patch).1
  | sv_toggleReady socketId token roomId :
      server_step st (on_toggleReady st socketId token roomId).1
  | sv_submitWord socketId token msg now r1 r2 :
      server_step st (on_submitWord st socketId token msg now r1 r2).1
  | sv_disconnect token :
      server_step st (on_disconnect_submissions st token)
  | sv_startGame token roomId scenario now :
      server_step st (on_startGame st token roomId scenario now)
  | sv_clearTimer roomId :
      server_step st (clearTimer st roomId)
  | sv_cleanup now :
      server_step st (cleanupRooms st now)
  | sv_stampDisconnect token now :
      server_step st (stampDisconnect st token now).

(** What holds of a room whatever the operations applied: its players
    carry distinct tokens, a player without lives is not alive, the
    settings are within the bounds of [updateSettings], the room has a
    player and it is not left in the state [finished]. *)
Definition roomOk (room : Room) : Prop :=
  tokensInv room ∧ livesInv room ∧ settingsInv (r_settings room) ∧
  r_players room ≠ [] ∧ r_gameState room ≠ finished.

Definition roomsOk (m : gmap string Room) : Prop :=
  map_Forall (λ _ room, roomOk room) m.

Definition registryOk (rm : RoomManager) : Prop := roomsOk (rooms rm).

Definition serverOk (st : Server) : Prop := registryOk (roomManager st).

(** Every socket of the reverse map belongs to a token that has a
    session. *)
Definition socketsInv (rm : RoomManager) : Prop :=
  ∀ socketId token, sockets rm !! socketId = Some token → is_Some (sessions rm !! token).

(** The server before any room is created. *)
Definition newServer (idx : Index) : Server := mkServer newRoomManager idx ∅.



(** Ana has just created room [r1]. *)
Definition exCreated : Server :=
  sv_setRoomManager
    (createRoom newRoomManager exHostData "sockA" "tokA" "room_1" 0).1 (newServer exIndex).

Definition exCreatedRoom : Room :=
  Eval vm_compute in (createRoom newRoomManager exHostData "sockA" "tokA" "room_1" 0).2.

(** The room of [exPlaying]: Ana and Bob, first round, Ana's turn. *)
Definition exPlayingRoom : Room :=
  Eval vm_compute in default exCreatedRoom (getRoom (roomManager exPlaying) "r1").


(** What a room keeps score of: the lives, the words found and the
    liveness of each token. *)
Definition scores (room : Room) : list (string * nat * nat * bool) :=
  (λ q, (p_token q, p_lives q, p_wordsFound q, p_isAlive q)) <$> r_players room.

(* ===================================================================== *)
(** * Session registry                                                    *)
(* ===================================================================== *)

(** C9, as stated, fails when the two socket ids are the same: the
    second registration deletes the reverse entry and binds it again, so
    [s1] still maps to [t]. *)
Lemma registerSocket_same_socket_still_bound :
  let rm2 := (registerSocket (registerSocket newRoomManager "t" "s").1 "t" "s").1 in
  sockets rm2 !! "s" = Some "t".
Proof. vm_compute. reflexivity. Qed.

(** C9 (amended): for distinct socket ids [s1] and [s2], after
    [register(t, s1); register(t, s2)] the token [t] has one session, its
    socketId is [s2], the reverse map sends [s2] to [t] and has no entry
    for [s1]. *)
Theorem registerSocket_twice (rm : RoomManager) (t s1 s2 : string) :
  s1 ≠ s2 →
  let rm2 := (registerSocket (registerSocket rm t s1).1 t s2).1 in
  (∃ session, sessions rm2 !! t = Some session ∧ s_socketId session = Some s2) ∧
  sockets rm2 !! s2 = Some t ∧
  sockets rm2 !! s1 = None.
Proof.
  intros Hne. unfold registerSocket.
  destruct (sessions rm !! t) as [existing|] eqn:Hs; simpl;
    rewrite lookup_insert_eq; simpl.
  - split; [eexists; split; [apply lookup_insert_eq | done]|].
    split; [apply lookup_insert_eq|].
    rewrite lookup_insert_ne by done. apply lookup_delete_eq.
  - split; [eexists; split; [apply lookup_insert_eq | done]|].
    split; [apply lookup_insert_eq|].
    rewrite lookup_insert_ne by done. apply lookup_delete_eq.
Qed.

Lemma registerSocket_twice_witness :
  let rm2 := (registerSocket (registerSocket exLobby "tokB" "sockB2").1 "tokB" "sockB3").1 in
  (∃ session, sessions rm2 !! "tokB" = Some session ∧ s_socketId session = Some "sockB3") ∧
  sockets rm2 !! "sockB3" = Some "tokB" ∧
  sockets rm2 !! "sockB2" = None.
Proof. apply (registerSocket_twice exLobby "tokB" "sockB2" "sockB3"). discriminate. Defined.

(* ===================================================================== *)
(** * Room registry                                                       *)
(* ===================================================================== *)

Lemma list_find_token_None (tok : string) (players : list Player) :
  list_find (λ p, p_token p = tok) players = None ↔ tok ∉ p_token <$> players.
Proof.
  rewrite list_find_None, list_elem_of_fmap, Forall_forall. split.
  - intros H (p & -> & Hp). by apply (H p).
  - intros H p Hp Heq. apply H. exists p. by rewrite Heq.
Qed.

Lemma promoteSpectator_fold roomId lives pending :
  ∀ players newPlayers sess,
    let fresh := playerOfSpectator lives <$> promoted (p_token <$> players) pending in
    ∃ sess',
      fold_left (promoteSpectator roomId lives) pending (players, newPlayers, sess)
      = (players ++ fresh, newPlayers ++ fresh, sess').
Proof.
  induction pending as [|spec rest IH]; intros players newPlayers sess; simpl.
  - exists sess. by rewrite !app_nil_r.
  - destruct (list_find _ players) as [[i p]|] eqn:Hfind.
    + assert (sp_token spec ∈ p_token <$> players) as Hin.
      { destruct (decide (sp_token spec ∈ p_token <$> players)) as [|Hn]; [done|].
        apply list_find_token_None in Hn. congruence. }
      rewrite decide_True by done. apply IH.
    + apply list_find_token_None in Hfind. rewrite decide_False by done.
      destruct (IH (players ++ [playerOfSpectator lives spec])
                  (newPlayers ++ [playerOfSpectator lives spec])
                  (alter (s_setRoomId (Some roomId)) (sp_token spec) sess))
        as [sess' Heq].
      exists sess'. rewrite Heq. rewrite fmap_app. simpl.
      by rewrite <- !app_assoc.
Qed.

Lemma promoted_complete (tokens : list string) (pending : list Spectator) (spec : Spectator) :
  spec ∈ pending → sp_token spec ∉ tokens →
  ∃ spec', spec' ∈ promoted tokens pending ∧ sp_token spec' = sp_token spec.
Proof.
  revert tokens. induction pending as [|s rest IH]; intros tokens Hin Hnot.
  - by apply elem_of_nil in Hin.
  - simpl. apply elem_of_cons in Hin as [->|Hin].
    + rewrite decide_False by done. exists s. split; [left|done].
    + destruct (decide (sp_token s ∈ tokens)); [by apply IH|].
      destruct (decide (sp_token spec = sp_token s)) as [Heq|Hne].
      * exists s. split; [left|done].
      * destruct (IH (tokens ++ [sp_token s]) Hin) as (spec' & Hin' & Htok).
        { rewrite elem_of_app, list_elem_of_singleton. tauto. }
        exists spec'. split; [by right|done].
Qed.

Lemma resetForLobby_fresh lives spec :
  resetForLobby lives (playerOfSpectator lives spec) = playerOfSpectator lives spec.
Proof. reflexivity. Qed.

(** C10: [endGame] turns every pending spectator whose token is not yet
    a player's into a fresh player appended to the players, empties
    [pendingSpectators], and never looks at [settings.maxPlayers]: the
    players may end up more numerous than [maxPlayers]. *)
Theorem endGame_promotes_without_capacity_check :
  (∀ rm roomId room,
     rooms rm !! roomId = Some room →
     let lives := startingLives (r_settings room) in
     let fresh :=
       playerOfSpectator lives
         <$> promoted (p_token <$> r_players room) (r_pendingSpectators room) in
     ∃ rm' res,
       endGame rm roomId = (rm', Some res) ∧
       rooms rm' !! roomId = Some (er_room res) ∧
       r_players (er_room res) = (resetForLobby lives <$> r_players room) ++ fresh ∧
       er_newPlayers res = fresh ∧
       r_pendingSpectators (er_room res) = [] ∧
       Forall (λ p, p_lives p = lives ∧ p_wordsFound p = 0 ∧ p_isAlive p = true ∧
                    p_isReady p = false ∧ p_isHost p = false) fresh ∧
       (∀ spec, spec ∈ r_pendingSpectators room →
                sp_token spec ∉ p_token <$> r_players room →
                ∃ p, p ∈ fresh ∧ p_token p = sp_token spec)) ∧
  (∃ rm roomId rm' res,
     endGame rm roomId = (rm', Some res) ∧
     maxPlayers (r_settings (er_room res)) < length (r_players (er_room res))).
Proof.
  split.
  - intros rm roomId room Hroom lives fresh. unfold endGame. rewrite Hroom.
    destruct (promoteSpectator_fold roomId lives (r_pendingSpectators room)
                (r_players room) [] (sessions rm)) as [sess' Hfold].
    fold lives. rewrite Hfold. simpl. do 2 eexists. split; [reflexivity|]. simpl.
    assert (resetForLobby lives <$> fresh = fresh) as Hfresh.
    { unfold fresh. rewrite <- list_fmap_compose. apply list_fmap_ext.
      intros i spec _. apply resetForLobby_fresh. }
    repeat split.
    + apply lookup_insert_eq.
    + fold fresh. rewrite fmap_app. by rewrite Hfresh.
    + exact Hfresh.
    + apply Forall_fmap, Forall_forall. intros spec _. simpl. done.
    + intros spec Hin Hnot.
      destruct (promoted_complete _ _ _ Hin Hnot) as (spec' & Hin' & Htok).
      exists (playerOfSpectator lives spec'). split; [|done].
      apply list_elem_of_fmap. by exists spec'.
  - exists exFullManager, "r1". do 2 eexists. split; [reflexivity|].
    vm_compute. lia.
Qed.

Lemma endGame_promotes_without_capacity_check_witness :
  ∃ rm' res,
    endGame exFullManager "r1" = (rm', Some res) ∧
    length (r_players (er_room res)) = 7 ∧
    r_pendingSpectators (er_room res) = [].
Proof.
  destruct (proj1 endGame_promotes_without_capacity_check exFullManager "r1" exFullRoom)
    as (rm' & res & Hend & _ & Hplayers & _ & Hpending & _).
  { reflexivity. }
  exists rm', res. split; [exact Hend|]. split; [|exact Hpending].
  rewrite Hplayers. reflexivity.
Defined.

(** ** The host invariant *)

Section HostInvariant.

Lemma hostTokens_app (l1 l2 : list Player) :
  hostTokens (l1 ++ l2) = hostTokens l1 ++ hostTokens l2.
Proof. unfold hostTokens. by rewrite filter_app, fmap_app. Qed.

Lemma hostTokens_cons (p : Player) (l : list Player) :
  hostTokens (p :: l) =
  if p_isHost p then p_token p :: hostTokens l else hostTokens l.
Proof.
  unfold hostTokens. rewrite filter_cons.
  destruct (p_isHost p); [by rewrite decide_True | by rewrite decide_False].
Qed.

Lemma hostTokens_insert (l : list Player) (i : nat) (p q : Player) :
  l !! i = Some p → p_isHost q = p_isHost p → p_token q = p_token p →
  hostTokens (<[i := q]> l) = hostTokens l.
Proof.
  revert i. induction l as [|x l IH]; intros [|i] Hi Hh Ht; simpl in *; try done.
  - injection Hi as ->. rewrite !hostTokens_cons. by rewrite Hh, Ht.
  - rewrite !hostTokens_cons. by rewrite (IH i).
Qed.

Lemma hostTokens_fmap (f : Player → Player) (l : list Player) :
  (∀ p, p_isHost (f p) = p_isHost p ∧ p_token (f p) = p_token p) →
  hostTokens (f <$> l) = hostTokens l.
Proof.
  intros Hf. induction l as [|x l IH]; [done|].
  rewrite fmap_cons, !hostTokens_cons. destruct (Hf x) as [-> ->]. by rewrite IH.
Qed.

Lemma hostTokens_filter_ne (t : string) (l : list Player) :
  hostTokens (filter (λ p, p_token p ≠ t) l) = filter (λ u, u ≠ t) (hostTokens l).
Proof.
  induction l as [|x l IH]; [done|].
  rewrite filter_cons. destruct (decide (p_token x ≠ t)) as [Hne|Heq].
  - rewrite !hostTokens_cons. destruct (p_isHost x); [|done].
    rewrite filter_cons, decide_True by done. by rewrite IH.
  - rewrite hostTokens_cons. destruct (p_isHost x); [|done].
    rewrite filter_cons, decide_False by done. done.
Qed.

Lemma hostTokens_subseteq (t : string) (l : list Player) :
  t ∈ hostTokens l → t ∈ p_token <$> l.
Proof.
  unfold hostTokens. rewrite !list_elem_of_fmap.
  intros (p & -> & Hp). apply list_elem_of_filter in Hp as [_ Hp]. by exists p.
Qed.

Lemma hostTokens_fresh lives (l : list Spectator) :
  hostTokens (playerOfSpectator lives <$> l) = [].
Proof. induction l as [|x l IH]; [done|]. by rewrite fmap_cons, hostTokens_cons. Qed.

Lemma roomsInv_new : roomsInv newRoomManager.
Proof. intros roomId room Hroom. cbn in Hroom. by rewrite lookup_empty in Hroom. Qed.

Lemma hostInv_createRoom rm roomData hostSocketId hostToken freshId now :
  hostInv (createRoom rm roomData hostSocketId hostToken freshId now).2.
Proof. reflexivity. Qed.

Lemma roomsInv_insert (rm : RoomManager) (roomId : string) (room : Room) m s k :
  roomsInv rm → hostInv room →
  m = <[roomId := room]> (rooms rm) →
  roomsInv (mkRoomManager m s k).
Proof.
  intros Hinv Hroom -> id r. simpl. rewrite lookup_insert.
  case_decide; [by intros [= <-] | apply Hinv].
Qed.

Lemma roomsInv_same_rooms (rm rm' : RoomManager) :
  rooms rm' = rooms rm → roomsInv rm → roomsInv rm'.
Proof. unfold roomsInv. by intros ->. Qed.

Lemma roomsInv_createRoom rm roomData hostSocketId hostToken freshId now :
  roomsInv rm → roomsInv (createRoom rm roomData hostSocketId hostToken freshId now).1.
Proof.
  intros Hinv. eapply roomsInv_insert; [done| |reflexivity]. reflexivity.
Qed.

Lemma roomsInv_joinRoom rm roomId playerData socketId token :
  roomsInv rm → roomsInv (joinRoom rm roomId playerData socketId token).1.
Proof.
  intros Hinv. unfold joinRoom.
  destruct (rooms rm !! roomId) as [room|] eqn:Hroom; [|done].
  pose proof (Hinv _ _ Hroom) as Hhost. unfold hostInv in Hhost.
  destruct (list_find _ (r_players room)) as [[i existing]|] eqn:Hfind.
  - apply list_find_Some in Hfind as (Hi & _ & _).
    eapply roomsInv_insert; [done| |reflexivity].
    unfold hostInv. simpl. by rewrite (hostTokens_insert _ _ existing).
  - destruct (maxPlayers _ <=? _); [done|].
    apply list_find_token_None in Hfind.
    case_bool_decide as Hplaying.
    + case_bool_decide as Hret.
      { exfalso. apply Hfind, hostTokens_subseteq. rewrite Hhost, Hret. left. }
      simpl. destruct (bool_decide (is_Some (findRecentlyLeft room token))); [|done].
      simpl. eapply roomsInv_insert; [done| |reflexivity].
      unfold hostInv. simpl. rewrite hostTokens_app, Hhost. reflexivity.
    + eapply roomsInv_insert; [done| |reflexivity].
      unfold hostInv. simpl. rewrite hostTokens_app, Hhost. reflexivity.
Qed.

(** What [leaveRoom] does to the room the session points to, when some
    player remains. *)
Lemma leaveRoom_remaining rm token now session roomId room next rest :
  sessions rm !! token = Some session → s_roomId session = Some roomId →
  rooms rm !! roomId = Some room →
  filter (λ p, p_token p ≠ token) (r_players room) = next :: rest →
  ∃ room',
    rooms (leaveRoom rm token now).1 !! roomId = Some room' ∧
    r_players room' =
      (if bool_decide (r_hostToken room = token)
       then p_setIsHost true next :: rest else next :: rest) ∧
    r_hostToken room' =
      (if bool_decide (r_hostToken room = token)
       then p_token next else r_hostToken room).
Proof.
  intros Hs Hrid Hroom Hrest. unfold leaveRoom. rewrite Hs, Hrid, Hroom.
  set (room1 := match snd <$> list_find _ (r_players room) with
                | Some lp => _ | None => _ end).
  assert (r_players room1 = r_players room ∧ r_hostToken room1 = r_hostToken room)
    as [Hp1 Hh1].
  { unfold room1. destruct (snd <$> list_find _ _); [|done].
    by destruct (bool_decide (r_gameState room = playing)). }
  clearbody room1. simpl. rewrite Hp1, Hrest.
  case_bool_decide as Hhost; simpl.
  - unfold promoteFirst. simpl.
    eexists. split; [apply lookup_insert_eq|]. done.
  - eexists. split; [apply lookup_insert_eq|]. done.
Qed.

Lemma roomsInv_leaveRoom rm token now :
  roomsInv rm → roomsInv (leaveRoom rm token now).1.
Proof.
  intros Hinv.
  destruct (sessions rm !! token) as [session|] eqn:Hs;
    [|unfold leaveRoom; by rewrite Hs].
  destruct (s_roomId session) as [roomId|] eqn:Hrid;
    [|unfold leaveRoom; by rewrite Hs, Hrid].
  destruct (rooms rm !! roomId) as [room|] eqn:Hroom;
    [|unfold leaveRoom; rewrite Hs, Hrid, Hroom; by apply roomsInv_same_rooms with rm].
  pose proof (Hinv _ _ Hroom) as Hhost. unfold hostInv in Hhost.
  destruct (filter (λ p, p_token p ≠ token) (r_players room)) as [|next rest] eqn:Hrest.
  - unfold leaveRoom. rewrite Hs, Hrid, Hroom.
    set (room1 := match snd <$> list_find _ (r_players room) with
                  | Some lp => _ | None => _ end).
    assert (r_players room1 = r_players room) as Hp1.
    { unfold room1. destruct (snd <$> list_find _ _); [|done].
      by destruct (bool_decide (r_gameState room = playing)). }
    clearbody room1. simpl. rewrite Hp1, Hrest. simpl.
    intros id r. simpl. rewrite lookup_delete. case_decide; [done|apply Hinv].
  - destruct (leaveRoom_remaining rm token now session roomId room next rest)
      as (room' & Hlook & Hplayers & Htoken); try done.
    pose proof (hostTokens_filter_ne token (r_players room)) as Hf.
    rewrite Hrest, Hhost in Hf.
    intros id r Hr. destruct (decide (id = roomId)) as [->|Hne].
    + rewrite Hlook in Hr. injection Hr as <-. unfold hostInv.
      rewrite Hplayers, Htoken. case_bool_decide as Hwas.
      * rewrite filter_cons, decide_False, filter_nil in Hf by (intros H; by apply H).
        rewrite hostTokens_cons in Hf. rewrite hostTokens_cons. simpl.
        destruct (p_isHost next); [done|]. by rewrite Hf.
      * rewrite filter_cons, decide_True, filter_nil in Hf by done. exact Hf.
    + apply (Hinv id). rewrite <- Hr. unfold leaveRoom. rewrite Hs, Hrid, Hroom.
      set (room1 := match snd <$> list_find _ (r_players room) with
                    | Some lp => _ | None => _ end).
      assert (r_players room1 = r_players room) as Hp1.
      { unfold room1. destruct (snd <$> list_find _ _); [|done].
        by destruct (bool_decide (r_gameState room = playing)). }
      clearbody room1. simpl. rewrite Hp1, Hrest.
      destruct (bool_decide (r_hostToken room = token)); simpl;
        [unfold promoteFirst; simpl|];
        by rewrite lookup_insert_ne.
Qed.

Lemma roomsInv_endGame rm roomId :
  roomsInv rm → roomsInv (endGame rm roomId).1.
Proof.
  intros Hinv. unfold endGame.
  destruct (rooms rm !! roomId) as [room|] eqn:Hroom; [|done].
  pose proof (Hinv _ _ Hroom) as Hhost. unfold hostInv in Hhost.
  destruct (promoteSpectator_fold roomId (startingLives (r_settings room))
              (r_pendingSpectators room) (r_players room) [] (sessions rm))
    as [sess' Hfold].
  rewrite Hfold. simpl.
  eapply roomsInv_insert; [done| |reflexivity].
  unfold hostInv. simpl. rewrite hostTokens_fmap by done.
  by rewrite hostTokens_app, hostTokens_fresh, app_nil_r.
Qed.

Lemma roomsInv_step (rm rm' : RoomManager) :
  roomsInv rm → membership_step rm rm' → roomsInv rm'.
Proof.
  intros Hinv Hstep. destruct Hstep.
  - by apply roomsInv_createRoom.
  - by apply roomsInv_joinRoom.
  - by apply roomsInv_leaveRoom.
  - by apply roomsInv_endGame.
Qed.

(** Hence the invariant holds in every registry reached from the empty
    one by membership mutations. *)
Lemma roomsInv_reachable (rm0 rm : RoomManager) :
  roomsInv rm0 → rtc membership_step rm0 rm → roomsInv rm.
Proof.
  intros Hinv Hreach. induction Hreach as [|x y z Hstep _ IH]; [done|].
  apply IH. by eapply roomsInv_step.
Qed.

End HostInvariant.

(** C7: every membership mutation (createRoom, joinRoom, leaveRoom,
    endGame) keeps, in every room of the registry, exactly one player
    flagged as host, whose token is the room's [hostToken]; and when the
    host leaves a room in which players remain, the first of them in
    insertion order is flagged as host and [hostToken] becomes its token. *)
Theorem host_unique_after_membership_mutation (rm : RoomManager) :
  roomsInv rm →
  (∀ rm', membership_step rm rm' → roomsInv rm') ∧
  (∀ token now session roomId room next rest,
     sessions rm !! token = Some session → s_roomId session = Some roomId →
     rooms rm !! roomId = Some room → r_hostToken room = token →
     filter (λ p, p_token p ≠ token) (r_players room) = next :: rest →
     ∃ room',
       rooms (leaveRoom rm token now).1 !! roomId = Some room' ∧
       r_players room' = p_setIsHost true next :: rest ∧
       r_hostToken room' = p_token next).
Proof.
  intros Hinv. split.
  - intros rm' Hstep. by eapply roomsInv_step.
  - intros token now session roomId room next rest Hs Hrid Hroom Hhost Hrest.
    destruct (leaveRoom_remaining rm token now session roomId room next rest)
      as (room' & Hlook & Hplayers & Htoken); try done.
    rewrite bool_decide_eq_true_2 in Hplayers, Htoken by done.
    by exists room'.
Qed.

Lemma roomsInv_exLobby : roomsInv exLobby.
Proof.
  intros roomId room Hroom.
  assert (∃ r, rooms exLobby = {[ "r1" := r ]} ∧ hostInv r) as (r & Heq & Hr).
  { eexists. split; reflexivity. }
  rewrite Heq in Hroom. apply lookup_singleton_Some in Hroom as [_ <-]. exact Hr.
Qed.

Lemma host_unique_after_membership_mutation_witness :
  roomsInv (leaveRoom exLobby "tokA" 5).1 ∧
  ∃ room', rooms (leaveRoom exLobby "tokA" 5).1 !! "r1" = Some room' ∧
           p_isHost <$> r_players room' = [true] ∧
           r_hostToken room' = "tokB".
Proof.
  destruct (host_unique_after_membership_mutation exLobby roomsInv_exLobby)
    as [Hstep Hpromote].
  split; [apply Hstep, step_leaveRoom|].
  edestruct (Hpromote "tokA" 5%Z) as (room' & Hlook & Hplayers & Htoken);
    [reflexivity..|].
  exists room'. split; [exact Hlook|]. rewrite Hplayers, Htoken. split; reflexivity.
Defined.

(* ===================================================================== *)
(** * Word submission                                                     *)
(* ===================================================================== *)

Lemma includes_empty (s : string) : Js.includes "" s = true.
Proof. by destruct s. Qed.

(** C5: the [syllable] field of a [submitWord] payload has no influence
    on the handler: two payloads that differ only there yield the same
    state and the same events, and a word is accepted only if it contains
    the room's own [currentSyllable]. *)
Theorem submitWord_uses_server_syllable :
  (∀ st socketId token roomId word syl1 syl2 now r1 r2,
     on_submitWord st socketId token (mkSubmitWord roomId word syl1) now r1 r2
     = on_submitWord st socketId token (mkSubmitWord roomId word syl2) now r1 r2) ∧
  (∀ st socketId token msg now r1 r2 room e,
     getRoom (roomManager st) (sw_roomId msg) = Some room →
     e ∈ (on_submitWord st socketId token msg now r1 r2).2 →
     isAccepted e = true →
     Js.includes
       (Js.trim (Js.toUpperCase (default "" (currentSyllable (r_game room)))))
       (Js.trim (Js.toUpperCase (sw_word msg))) = true).
Proof.
  split; [reflexivity|].
  intros st socketId token msg now r1 r2 room e Hroom. unfold on_submitWord.
  rewrite Hroom. destruct token as [tok|]; [|by intros ?%elem_of_nil].
  case_bool_decide; [by intros ?%elem_of_nil|].
  destruct (list_find _ _) as [[pi player]|]; [|by intros ?%elem_of_nil].
  destruct (negb (p_isAlive player)); [by intros ?%elem_of_nil|].
  destruct (filter _ _); [|by intros ->%list_elem_of_singleton].
  match goal with |- context [if ?b then _ else _] => destruct b end;
    [by intros ->%list_elem_of_singleton|].
  destruct (negb (Js.truthy _)); [by intros ->%list_elem_of_singleton|].
  destruct (Js.truthy _ && negb _) eqn:Hsyl; [by intros ->%list_elem_of_singleton|].
  destruct (dictHas _ _); [|by intros ->%list_elem_of_singleton].
  intros _ _. apply andb_false_iff in Hsyl as [Hempty|Hincl].
  - destruct (Js.trim (Js.toUpperCase (default "" _))); [|done].
    apply includes_empty.
  - by apply negb_false_iff in Hincl.
Qed.

Lemma submitWord_uses_server_syllable_witness :
  currentSyllable <$> (r_game <$> getRoom (roomManager exPlaying) "r1") = Some (Some "AB") ∧
  Js.includes "AB" "ABRI" = true.
Proof.
  split; [reflexivity|].
  assert (∃ room, getRoom (roomManager exPlaying) "r1" = Some room ∧
                  currentSyllable (r_game room) = Some "AB") as (room & Hroom & Hsyl).
  { eexists. split; reflexivity. }
  pose proof (proj2 submitWord_uses_server_syllable exPlaying "sockA" (Some "tokA")
                (mkSubmitWord "r1" "abri" "ZZ") 1000%Z 0 0 room) as H.
  rewrite Hsyl in H. eapply H; [exact Hroom | vm_compute; left | reflexivity].
Defined.

(* ===================================================================== *)
(** * Pause and resume                                                    *)
(* ===================================================================== *)

(** What [resumeRoomGame] does to a paused room in play: the pause flag
    is cleared, [gameResumed] is broadcast, and a timer is armed that ends
    at [now + (pausedRemaining || 3000)]. *)
Lemma resumeRoomGame_paused st roomId now room :
  getRoom (roomManager st) roomId = Some room →
  r_gameState room = playing → paused (r_game room) = true →
  let remaining := orZ (pausedRemaining (r_game room)) 3000 in
  ∃ room',
    getRoom (roomManager (resumeRoomGame st roomId now).1) roomId = Some room' ∧
    paused (r_game room') = false ∧
    timer (r_game room') =
      Some (mkTimer (now + remaining) (orZ (timerTotal (r_game room)) 8000)) ∧
    timerEndTime (r_game room') = Some (now + remaining)%Z ∧
    (resumeRoomGame st roomId now).2 =
      [(toRoom roomId,
        gameResumed remaining (orZ (timerTotal (r_game room)) 8000)
          (currentSyllable (r_game room)) (currentPlayerIndex (r_game room))
          (playerAtOrFirst room (currentPlayerIndex (r_game room)))
          (roundNumber (r_game room)))].
Proof.
  intros Hroom Hplaying Hpaused remaining. unfold resumeRoomGame.
  rewrite Hroom, Hpaused. rewrite bool_decide_eq_false_2 by (by intros []).
  simpl. eexists. split; [apply lookup_insert_eq|]. done.
Qed.

(** C4 at the failing input: a room paused with 1000 ms left and resumed
    at [now = 20000] gets [timerEndTime = 21000], which is
    [now + pausedRemaining] and not [now + max(pausedRemaining, 3000)]:
    [pausedRemaining || 3000] replaces only a remaining time of zero. *)
Theorem resumeRoomGame_short_remaining_not_floored :
  pausedRemaining <$> (r_game <$> getRoom (roomManager exPaused) "r1")
    = Some (Some 1000%Z) ∧
  timerEndTime <$>
    (r_game <$> getRoom (roomManager (resumeRoomGame exPaused "r1" 20000).1) "r1")
    = Some (Some 21000%Z) ∧
  (20000 + Z.max 1000 3000)%Z = 23000%Z.
Proof. repeat split. Qed.

(* ===================================================================== *)
(** * Chat                                                                *)
(* ===================================================================== *)





(* ===================================================================== *)
(** * Dictionary index: rebuilds                                          *)
(* ===================================================================== *)

Section Rebuild.









End Rebuild.




(* ===================================================================== *)
(** * Dictionary index: syllable counts                                   *)
(* ===================================================================== *)

Section Counts.

(** *** Sets and maps in insertion order *)







(** *** The scan of one word, one length at a time *)







(** *** From the objects indexed by length to a single length *)











(** *** Counting *)



End Counts.




(* ===================================================================== *)
(** * Syllable selection under a count filter                             *)
(* ===================================================================== *)

Section Selection.









End Selection.




(* ===================================================================== *)
(** * The submission rate limit                                           *)
(* ===================================================================== *)

Section RateLimit.

Lemma wordSubmissions_startRoomTimer st roomId d now :
  wordSubmissions (startRoomTimer st roomId d now) = wordSubmissions st.
Proof. unfold startRoomTimer. by destruct (getRoom _ _). Qed.

Lemma wordSubmissions_advance st roomId :
  wordSubmissions (advanceToNextAlivePlayer st roomId).1 = wordSubmissions st.
Proof.
  unfold advanceToNextAlivePlayer. destruct (getRoom _ _); [|done].
  case_bool_decide; [done|]. by destruct (List.filter _ _).
Qed.

Lemma wordSubmissions_startNextRound st roomId now r1 r2 :
  wordSubmissions (startNextRound st roomId now r1 r2).1 = wordSubmissions st.
Proof.
  unfold startNextRound. destruct (getRoom _ _); [|done].
  case_bool_decide; [done|]. destruct (pickServerSyllable _ _ _ _ _).
  cbn [fst]. by rewrite wordSubmissions_startRoomTimer.
Qed.

(** A submission touches the record of its own token only. *)
Lemma runSubmit_other_token st ev tok :
  se_token ev ≠ Some tok →
  wordSubmissions (runSubmit st ev).1 !! tok = wordSubmissions st !! tok.
Proof.
  intros Hne. unfold runSubmit, on_submitWord.
  destruct (getRoom _ _) as [room|]; [|done].
  destruct (se_token ev) as [tok'|]; [|done].
  assert (tok' ≠ tok) as Hne' by congruence.
  case_bool_decide; [done|].
  destruct (list_find _ _) as [[pi player]|]; [|done].
  destruct (negb (p_isAlive player)); [done|].
  set (ws1 := match wordSubmissions st !! tok' with
              | Some _ => wordSubmissions st
              | None => <[tok' := []]> (wordSubmissions st) end).
  assert (ws1 !! tok = wordSubmissions st !! tok) as Hws1.
  { unfold ws1. destruct (wordSubmissions st !! tok'); [done|].
    by rewrite lookup_insert_ne. }
  clearbody ws1.
  destruct (filter _ _); [|done].
  match goal with |- context [if ?b then _ else _] => destruct b end;
    [cbn; by rewrite lookup_insert_ne|].
  destruct (negb (Js.truthy _)); [cbn; by rewrite lookup_insert_ne|].
  destruct (Js.truthy _ && negb _); [cbn; by rewrite lookup_insert_ne|].
  destruct (dictHas _ _); [|cbn; by rewrite lookup_insert_ne].
  destruct (advanceToNextAlivePlayer _ _) as [st4 ev1] eqn:Hadv.
  destruct (startNextRound st4 _ _ _ _) as [st5 ev2] eqn:Hnext.
  cbn [fst].
  change st5 with (st5, ev2).1. rewrite <- Hnext, wordSubmissions_startNextRound.
  change st4 with (st4, ev1).1. rewrite <- Hadv, wordSubmissions_advance.
  cbn. by rewrite lookup_insert_ne.
Qed.

(** A submission of [tok] made less than 800 ms after a recorded one is
    turned away before anything is changed. *)
Lemma runSubmit_too_fast st ev tok t :
  se_token ev = Some tok →
  t ∈ default [] (wordSubmissions st !! tok) → (se_now ev - t < 800)%Z →
  wordSubmissions (runSubmit st ev).1 = wordSubmissions st ∧
  (runSubmit st ev).2 =
    if submitGuards st tok (sw_roomId (se_msg ev))
    then [tooFast (se_socketId ev)] else [].
Proof.
  intros Htok Hin Hlt. unfold runSubmit, on_submitWord, submitGuards. rewrite Htok.
  destruct (getRoom _ _) as [room|]; [|done].
  case_bool_decide as Hstate.
  { rewrite bool_decide_eq_false_2 by done. done. }
  rewrite bool_decide_eq_true_2 by (by destruct (r_gameState room)).
  destruct (list_find _ _) as [[pi player]|]; [|done].
  destruct (p_isAlive player); [|done]. cbn [negb andb].
  destruct (wordSubmissions st !! tok) as [l|] eqn:Hl; [|by apply elem_of_nil in Hin].
  rewrite Hl. cbn [default from_option id] in *.
  destruct (filter _ l) as [|t0 l'] eqn:Hfilter.
  - exfalso. by eapply (filter_nil_not_elem_of _ l t Hfilter).
  - done.
Qed.

(** A submission that passes the guards and finds no recorded time less
    than 800 ms old leaves its own time as the token's record. *)
Lemma runSubmit_records st ev tok :
  se_token ev = Some tok →
  submitGuards st tok (sw_roomId (se_msg ev)) = true →
  filter (λ t, (se_now ev - t < 800)%Z) (default [] (wordSubmissions st !! tok)) = [] →
  wordSubmissions (runSubmit st ev).1 !! tok = Some [se_now ev].
Proof.
  intros Htok Hguards Hold. unfold runSubmit, on_submitWord. rewrite Htok.
  unfold submitGuards in Hguards.
  destruct (getRoom _ _) as [room|]; [|done].
  apply andb_true_iff in Hguards as [Hplaying Halive].
  apply bool_decide_eq_true in Hplaying.
  rewrite bool_decide_eq_false_2 by (rewrite Hplaying; by intros []).
  destruct (list_find _ _) as [[pi player]|]; [|done].
  rewrite Halive. cbn [negb].
  set (ws1 := match wordSubmissions st !! tok with
              | Some _ => wordSubmissions st
              | None => <[tok := []]> (wordSubmissions st) end).
  assert (filter (λ t, (se_now ev - t < 800)%Z) (default [] (ws1 !! tok)) = []) as ->.
  { unfold ws1. destruct (wordSubmissions st !! tok) eqn:Hl; [by rewrite Hl|].
    by rewrite lookup_insert_eq. }
  clearbody ws1.
  match goal with |- context [if ?b then _ else _] => destruct b end;
    [cbn; by rewrite lookup_insert_eq|].
  destruct (negb (Js.truthy _)); [cbn; by rewrite lookup_insert_eq|].
  destruct (Js.truthy _ && negb _); [cbn; by rewrite lookup_insert_eq|].
  destruct (dictHas _ _); [|cbn; by rewrite lookup_insert_eq].
  destruct (advanceToNextAlivePlayer _ _) as [st4 ev1] eqn:Hadv.
  destruct (startNextRound st4 _ _ _ _) as [st5 ev2] eqn:Hnext.
  cbn [fst].
  change st5 with (st5, ev2).1. rewrite <- Hnext, wordSubmissions_startNextRound.
  change st4 with (st4, ev1).1. rewrite <- Hadv, wordSubmissions_advance.
  cbn. by rewrite lookup_insert_eq.
Qed.

Lemma runSubmits_keeps_record st evs tok t :
  t ∈ default [] (wordSubmissions st !! tok) →
  Forall (λ ev, se_token ev = Some tok → (se_now ev - t < 800)%Z) evs →
  t ∈ default [] (wordSubmissions (runSubmits st evs) !! tok).
Proof.
  revert st. induction evs as [|ev evs IH]; intros st Hin Hall; [done|].
  apply Forall_cons in Hall as [Hev Hall]. cbn [runSubmits fold_left].
  apply IH; [|done].
  destruct (decide (se_token ev = Some tok)) as [Heq|Hne].
  - destruct (runSubmit_too_fast st ev tok t Heq Hin (Hev Heq)) as [-> _]. done.
  - by rewrite runSubmit_other_token.
Qed.

End RateLimit.

(** C6, as stated, fails: a submission turned away as too fast is not
    recorded, so the window runs from the last recorded submission.  Ana
    submits at 100 (recorded, word refused), at 850 (too fast) and at 950:
    the last two are 100 ms apart and the later one is accepted. *)
Lemma later_of_two_rapid_submissions_accepted :
  let st1 := (runSubmit exPlaying (exAna "zzz" 100)).1 in
  let st2 := (runSubmit st1 (exAna "abri" 850)).1 in
  (runSubmit st1 (exAna "abri" 850)).2 = [tooFast "sockA"] ∧
  head (runSubmit st2 (exAna "abri" 950)).2
    = Some (toRoom "r1", wordAccepted "Ana" "sockA" "ABRI" 1) ∧
  (950 - 850 < 800)%Z.
Proof. vm_compute. repeat split. Qed.

(** C6 (amended): of two [submitWord] events of one token, when the
    first left its time in the token's record, the second comes less than
    800 ms after it, and only [submitWord] events (of any token, those of
    this token also within the 800 ms) happen in between, the second is
    never accepted: it is answered [wordRejected] with reason
    [Trop rapide!] when it passes the guards on the room and the player,
    and is dropped without an answer otherwise. *)
Theorem rapid_resubmission_rejected
    (st0 : Server) (first : SubmitEvent) (between : list SubmitEvent)
    (second : SubmitEvent) (tok : string) :
  se_token first = Some tok → se_token second = Some tok →
  se_now first ∈ default [] (wordSubmissions (runSubmit st0 first).1 !! tok) →
  Forall (λ ev, se_token ev = Some tok → (se_now ev - se_now first < 800)%Z) between →
  (se_now second - se_now first < 800)%Z →
  let st := runSubmits (runSubmit st0 first).1 between in
  (runSubmit st second).2 =
    (if submitGuards st tok (sw_roomId (se_msg second))
     then [tooFast (se_socketId second)] else []) ∧
  existsb isAccepted (runSubmit st second).2 = false.
Proof.
  intros Hfirst Hsecond Hrec Hbetween Hlt st.
  pose proof (runSubmits_keeps_record _ between tok _ Hrec Hbetween) as Hkept.
  destruct (runSubmit_too_fast st second tok _ Hsecond Hkept Hlt) as [_ Hev].
  rewrite Hev. split; [done|]. by destruct (submitGuards _ _ _).
Qed.

Lemma rapid_resubmission_rejected_witness :
  let st := runSubmits (runSubmit exPlaying (exAna "zzz" 100)).1 [exBob "abri" 300] in
  (runSubmit st (exAna "abri" 850)).2 = [tooFast "sockA"].
Proof.
  intros st.
  destruct (rapid_resubmission_rejected exPlaying (exAna "zzz" 100) [exBob "abri" 300]
              (exAna "abri" 850) "tokA") as [Hev _];
    [reflexivity | reflexivity | vm_compute; left | repeat constructor | reflexivity |].
  fold st in Hev. rewrite Hev. vm_compute. reflexivity.
Defined.

(** The record of a token is erased when a socket that registered it
    disconnects; the window of 800 ms then starts afresh, which is why the
    statement above speaks of [submitWord] events only. *)
Lemma disconnect_erases_submission_record :
  let st1 := (runSubmit exPlaying (exAna "zzz" 100)).1 in
  let st2 := on_disconnect_submissions st1 (Some "tokA") in
  wordSubmissions st1 !! "tokA" = Some [100%Z] ∧
  wordSubmissions st2 !! "tokA" = None ∧
  head (runSubmit st2 (exAna "abri" 200)).2
    = Some (toRoom "r1", wordAccepted "Ana" "sockA" "ABRI" 1).
Proof. vm_compute. repeat split. Qed.

(* ===================================================================== *)
(** * Further properties: strings and the dictionary                      *)
(* ===================================================================== *)

Section EscapeHtml.

Lemma allChars_append (P : ascii → bool) (a b : string) :
  Js.allChars P (a +:+ b) = Js.allChars P a && Js.allChars P b.
Proof. induction a as [|c a IH]; [done|]. simpl. rewrite IH. by destruct (P c). Qed.

(** A replacement whose text passes [P] yields a string that passes [P]
    as soon as every character of the input other than the replaced one
    does. *)
Lemma allChars_replaceAll (P : ascii → bool) (c : ascii) (by_ s : string) :
  Js.allChars P by_ = true →
  Js.allChars (λ a, Ascii.eqb a c || P a) s = true →
  Js.allChars P (Js.replaceAll c by_ s) = true.
Proof.
  intros Hby. induction s as [|a s IH]; [done|]. simpl.
  intros [Ha Hs]%andb_true_iff. destruct (Ascii.eqb a c) eqn:Hac.
  - rewrite allChars_append, Hby. by apply IH.
  - simpl in *. rewrite Ha. by apply IH.
Qed.

Lemma allChars_weaken (P Q : ascii → bool) (s : string) :
  (∀ a, P a = true → Q a = true) → Js.allChars P s = true → Js.allChars Q s = true.
Proof.
  intros HPQ. induction s as [|a s IH]; [done|]. simpl.
  intros [Ha Hs]%andb_true_iff. by rewrite (HPQ a Ha), IH.
Qed.

Lemma allChars_true (s : string) : Js.allChars (λ _, true) s = true.
Proof. by induction s. Qed.

Lemma replaceAll_absent (c : ascii) (by_ s : string) :
  Js.allChars (λ a, negb (Ascii.eqb a c)) s = true → Js.replaceAll c by_ s = s.
Proof.
  induction s as [|a s IH]; [done|]. simpl. intros [Ha Hs]%andb_true_iff.
  apply negb_true_iff in Ha. rewrite Ha. by rewrite IH.
Qed.

End EscapeHtml.

(** X1: the result of [escapeHtml] contains none of the characters
    [<], [>], double quote and single quote, whatever the input; and a
    string without these characters and without [&] is returned as it
    is. *)
Theorem escapeHtml_no_markup (str : string) :
  Js.allChars (λ c, negb (isMarkup c)) (escapeHtml str) = true ∧
  (Js.allChars (λ c, negb (isMarkup c || Ascii.eqb c "&")) str = true →
   escapeHtml str = str).
Proof.
  split.
  - unfold escapeHtml.
    apply allChars_replaceAll; [done|].
    apply allChars_replaceAll; [done|].
    apply allChars_replaceAll; [done|].
    apply allChars_replaceAll; [done|].
    eapply allChars_weaken; [|apply allChars_true].
    intros a _. unfold isMarkup.
    destruct (Ascii.eqb a "<"), (Ascii.eqb a ">"), (Ascii.eqb a (ascii_of_nat 34)),
      (Ascii.eqb a "'"); reflexivity.
  - intros Hsafe. unfold escapeHtml.
    assert (∀ c, isMarkup c || Ascii.eqb c "&" = true →
                 Js.allChars (λ a, negb (Ascii.eqb a c)) str = true) as Habs.
    { intros c Hc. eapply allChars_weaken; [|exact Hsafe]. intros a Ha. simpl in Ha.
      destruct (Ascii.eqb_spec a c) as [->|]; [|done]. by rewrite Hc in Ha. }
    rewrite (replaceAll_absent "&") by (by apply Habs).
    rewrite (replaceAll_absent "<") by (by apply Habs).
    rewrite (replaceAll_absent ">") by (by apply Habs).
    rewrite (replaceAll_absent (ascii_of_nat 34)) by (by apply Habs).
    by rewrite (replaceAll_absent "'") by (by apply Habs).
Qed.

Lemma escapeHtml_no_markup_witness :
  escapeHtml "Salon de Ana (2)" = "Salon de Ana (2)".
Proof. apply (proj2 (escapeHtml_no_markup "Salon de Ana (2)")). reflexivity. Defined.

Section Normalize.













End Normalize.


Section WordParts.

Lemma split_no_separator (sep : ascii) (s : string) :
  Forall (λ p, Js.allChars (λ c, negb (Ascii.eqb c sep)) p = true) (Js.split sep s).
Proof.
  induction s as [|c s IH]; simpl; [by repeat constructor|].
  destruct (Ascii.eqb c sep) eqn:Hc; [by constructor|].
  destruct (Js.split sep s) as [|h t]; [by repeat constructor; simpl; rewrite Hc|].
  apply Forall_cons in IH as [Hh Ht]. constructor; [|done]. simpl. by rewrite Hc.
Qed.

Lemma split_concat (sep : ascii) (s : string) :
  foldr String.append "" (Js.split sep s) = Js.replaceAll sep "" s.
Proof.
  induction s as [|c s IH]; [done|]. simpl.
  destruct (Ascii.eqb c sep); [done|].
  destruct (Js.split sep s) as [|h t]; simpl in *; by rewrite <- IH.
Qed.

Lemma filter_truthy_concat (l : list string) :
  foldr String.append "" (filter (λ p, Js.truthy p = true) l) = foldr String.append "" l.
Proof.
  induction l as [|p l IH]; [done|]. rewrite filter_cons.
  destruct p; [by rewrite decide_False by done|].
  rewrite decide_True by done. simpl. by rewrite IH.
Qed.

End WordParts.

(** X3: the parts of a word are never empty and never contain a
    hyphen, and put end to end they give the word without its hyphens:
    splitting loses no letter. *)
Theorem wordParts_spec (word : string) :
  Forall (λ p, p ≠ "" ∧ Js.allChars (λ c, negb (Ascii.eqb c "-")) p = true)
    (wordParts word) ∧
  foldr String.append "" (wordParts word) = Js.replaceAll "-" "" word.
Proof.
  unfold wordParts. split.
  - apply Forall_forall. intros p [Hp Hin]%list_elem_of_filter. split.
    + by destruct p.
    + pose proof (split_no_separator "-" word) as Hall.
      rewrite Forall_forall in Hall. by apply Hall.
  - by rewrite filter_truthy_concat, split_concat.
Qed.

Section Queries.




End Queries.





Section Samples.







End Samples.



(* ===================================================================== *)
(** * The registry: sockets, sessions and membership                      *)
(* ===================================================================== *)

Section Registry.

Lemma list_find_insert_same {A} (P : A → Prop) `{!∀ x, Decision (P x)}
    (l : list A) (i : nat) (x y : A) :
  list_find P l = Some (i, x) → P y → list_find P (<[i := y]> l) = Some (i, y).
Proof.
  intros (Hi & Hx & Hbefore)%list_find_Some Hy. apply list_find_Some.
  split_and!; [|done|].
  - apply list_lookup_insert_eq. by eapply lookup_lt_Some.
  - intros j z Hj Hlt. rewrite list_lookup_insert_ne in Hj by lia. by eapply Hbefore.
Qed.

Lemma registerSocket_sessions rm t s t' :
  is_Some (sessions rm !! t') → is_Some (sessions (registerSocket rm t s).1 !! t').
Proof.
  intros Hsome. unfold registerSocket.
  destruct (sessions rm !! t) as [existing|] eqn:Ht; cbn [fst sessions];
    (destruct (decide (t' = t)) as [->|Hne];
     [rewrite lookup_insert_eq; by eexists | by rewrite lookup_insert_ne]).
Qed.

Lemma promoteSpectator_fold_sessions roomId lives (t : string) pending :
  ∀ acc : list Player * list Player * gmap string Session,
    is_Some (acc.2 !! t) →
    is_Some ((fold_left (promoteSpectator roomId lives) pending acc).2 !! t).
Proof.
  induction pending as [|spec rest IH]; intros [[players newPlayers] sess] Hsome; [done|].
  cbn [fold_left]. apply IH. unfold promoteSpectator.
  destruct (list_find _ players); [done|]. cbn. by apply lookup_alter_is_Some.
Qed.

Lemma membership_step_sessions rm rm' t :
  membership_step rm rm' → is_Some (sessions rm !! t) →
  is_Some (sessions rm' !! t) ∧ sockets rm' = sockets rm.
Proof.
  intros Hstep Hsome. destruct Hstep as [rd hs ht fid now|rid pd s tok|tok now|rid].
  - cbn. split; [|done]. by apply lookup_alter_is_Some.
  - unfold joinRoom. destruct (rooms rm !! rid) as [room|]; [|done].
    destruct (list_find _ _) as [[i existing]|].
    { cbn. split; [|done]. by apply lookup_alter_is_Some. }
    destruct (_ <=? _); [done|]. destruct (bool_decide (r_gameState room = playing)).
    + destruct (negb _ && negb _); [done|]. cbn. split; [|done].
      by apply lookup_alter_is_Some.
    + cbn. split; [|done]. by apply lookup_alter_is_Some.
  - unfold leaveRoom. destruct (sessions rm !! tok) as [session|] eqn:Hs; [|done].
    assert (is_Some (<[tok := s_setRoomId None session]> (sessions rm) !! t)) as Hins.
    { destruct (decide (t = tok)) as [->|Hne];
        [rewrite lookup_insert_eq; by eexists | by rewrite lookup_insert_ne]. }
    destruct (s_roomId session) as [rid|]; [|done].
    destruct (rooms rm !! rid) as [room|]; [|done].
    cbn zeta. destruct (r_players (r_setPlayers _ _)); [done|].
    by destruct (if bool_decide _ then _ else _).
  - unfold endGame. destruct (rooms rm !! rid) as [room|]; [|done].
    pose proof (promoteSpectator_fold_sessions rid (startingLives (r_settings room)) t
                  (r_pendingSpectators room) (r_players room, [], sessions rm) Hsome) as Hfold.
    destruct (fold_left _ _ _) as [[players1 newPlayers] sessions1]. done.
Qed.

Lemma membership_step_sockets rm rm' :
  membership_step rm rm' → sockets rm' = sockets rm.
Proof.
  intros Hstep. destruct Hstep as [rd hs ht fid now|rid pd s tok|tok now|rid].
  - done.
  - unfold joinRoom. destruct (rooms rm !! rid) as [room|]; [|done].
    destruct (list_find _ _) as [[i existing]|]; [done|].
    destruct (_ <=? _); [done|]. destruct (bool_decide (r_gameState room = playing)); [|done].
    by destruct (negb _ && negb _).
  - unfold leaveRoom. destruct (sessions rm !! tok) as [session|]; [|done].
    destruct (s_roomId session) as [rid|]; [|done].
    destruct (rooms rm !! rid) as [room|]; [|done].
    cbn zeta. destruct (r_players (r_setPlayers _ _)); [done|].
    by destruct (if bool_decide _ then _ else _).
  - unfold endGame. destruct (rooms rm !! rid) as [room|]; [|done].
    by destruct (fold_left _ _ _) as [[players1 newPlayers] sessions1].
Qed.

Lemma markPlayer_sessions v rm t :
  sessions (markPlayer v rm t).1 = sessions rm ∧ sockets (markPlayer v rm t).1 = sockets rm.
Proof.
  unfold markPlayer. destruct (sessions rm !! t) as [session|]; [|done].
  destruct (s_roomId session) as [rid|]; [|done].
  destruct (rooms rm !! rid) as [room|]; [|done].
  by destruct (list_find _ _) as [[i p]|].
Qed.

Lemma socketsInv_step rm rm' :
  socketsInv rm → registry_step rm rm' → socketsInv rm'.
Proof.
  intros Hinv Hstep s t. destruct Hstep as [tok sock|sock|rm' Hm|tok|tok|rid now].
  - intros Hlook. unfold registerSocket in *.
    destruct (sessions rm !! tok) as [existing|] eqn:Htok; cbn [fst sessions sockets] in *.
    + destruct (decide (s = sock)) as [->|Hne].
      * rewrite lookup_insert_eq in Hlook. injection Hlook as <-.
        rewrite lookup_insert_eq. by eexists.
      * rewrite lookup_insert_ne in Hlook by done.
        assert (sockets rm !! s = Some t) as Hold.
        { destruct (s_socketId existing) as [o|]; cbn in Hlook; [|done].
          apply lookup_delete_Some in Hlook. tauto. }
        destruct (decide (t = tok)) as [->|Hne'];
          [rewrite lookup_insert_eq; by eexists|].
        rewrite lookup_insert_ne by done. by eapply Hinv.
    + destruct (decide (s = sock)) as [->|Hne].
      * rewrite lookup_insert_eq in Hlook. injection Hlook as <-.
        rewrite lookup_insert_eq. by eexists.
      * rewrite lookup_insert_ne in Hlook by done.
        destruct (decide (t = tok)) as [->|Hne'];
          [rewrite lookup_insert_eq; by eexists|].
        rewrite lookup_insert_ne by done. by eapply Hinv.
  - unfold unregisterSocket. cbn [fst sessions sockets]. intros Hlook.
    apply lookup_delete_Some in Hlook as [Hne Hlook]. pose proof (Hinv _ _ Hlook) as Hsome.
    destruct (sockets rm !! sock) as [tok|]; [|done].
    destruct (sessions rm !! tok) as [session|] eqn:Htok; [|done].
    case_bool_decide; [|done].
    destruct (decide (t = tok)) as [->|Hne'];
      [rewrite lookup_insert_eq; by eexists | by rewrite lookup_insert_ne].
  - intros Hlook. rewrite (membership_step_sockets rm rm' Hm) in Hlook.
    by apply (membership_step_sessions rm rm' t Hm), (Hinv s).
  - unfold markDisconnected. destruct (markPlayer_sessions true rm tok) as [-> ->]. apply Hinv.
  - unfold markReconnected. destruct (markPlayer_sessions false rm tok) as [-> ->]. apply Hinv.
  - unfold startGame. destruct (rooms rm !! rid) as [room|]; apply Hinv.
Qed.

End Registry.


(** X8: in every registry reached from the empty one by the methods of
    [RoomManager], a socket that is bound to a token has a session:
    [getSessionBySocket] answers whenever [getTokenBySocket] does. *)
Theorem getSessionBySocket_defined (rm : RoomManager) (socketId token : string) :
  rtc registry_step newRoomManager rm →
  getTokenBySocket rm socketId = Some token → token ≠ "" →
  ∃ session,
    getSessionBySocket rm socketId = Some session ∧ sessions rm !! token = Some session.
Proof.
  intros Hreach Htok Hne.
  assert (socketsInv rm) as Hinv.
  { clear Htok. eapply (rtc_ind_r socketsInv newRoomManager); [| |exact Hreach].
    - intros s t Hs. cbn in Hs. by rewrite lookup_empty in Hs.
    - intros y z _ Hstep Hy. by eapply socketsInv_step. }
  unfold getTokenBySocket in Htok. destruct (Hinv _ _ Htok) as [session Hsess].
  exists session. unfold getSessionBySocket. rewrite Htok.
  by destruct token.
Qed.

Lemma getSessionBySocket_defined_witness :
  ∃ session,
    getSessionBySocket (registerSocket newRoomManager "tokA" "sockA").1 "sockA" = Some session ∧
    sessions (registerSocket newRoomManager "tokA" "sockA").1 !! "tokA" = Some session.
Proof.
  apply (getSessionBySocket_defined _ "sockA" "tokA").
  - apply rtc_once, reg_registerSocket.
  - vm_compute. reflexivity.
  - discriminate.
Defined.

(** X9: the host who creates a room and leaves it before anyone joins
    deletes the room, provided the host's token has a session; a host
    without a session cannot leave, and the room stays. *)
Theorem createRoom_then_leaveRoom (rm : RoomManager) (roomData : RoomData)
    (hostSocketId hostToken freshId : string) (now now' : Z) :
  freshId ≠ "" →
  let c := createRoom rm roomData hostSocketId hostToken freshId now in
  let l := leaveRoom c.1 hostToken now' in
  r_id c.2 ≠ "" ∧
  match sessions rm !! hostToken with
  | Some session =>
      l.2 = LeaveDeleted (r_id c.2) ∧
      rooms l.1 = delete (r_id c.2) (rooms rm) ∧
      sessions l.1 !! hostToken = Some (s_setRoomId None session)
  | None =>
      l = (c.1, LeaveNull) ∧ getRoom l.1 (r_id c.2) = Some c.2
  end.
Proof.
  intros Hfresh. cbn zeta. split.
  { cbn. destruct (rd_id roomData) as [[|a s]|]; cbn; done. }
  unfold leaveRoom, createRoom. cbn [fst snd sessions rooms].
  rewrite lookup_alter.
  destruct (sessions rm !! hostToken) as [session|] eqn:Hs.
  - rewrite decide_True by done. cbn [fmap option_fmap option_map s_roomId s_setRoomId].
    rewrite lookup_insert_eq. cbn [r_gameState r_players].
    rewrite bool_decide_false by done.
    cbn. destruct (decide (hostToken = hostToken)) as [_|]; [|done].
    cbn. destruct (decide (hostToken ≠ hostToken)) as [|_]; [done|].
    cbn. split_and!; [done| |].
    + by rewrite delete_insert_eq.
    + by rewrite lookup_insert_eq.
  - rewrite decide_True by done. cbn. split; [done|]. unfold getRoom. cbn.
    by rewrite lookup_insert_eq.
Qed.

Lemma createRoom_then_leaveRoom_witness :
  (leaveRoom
     (createRoom (registerSocket newRoomManager "tokA" "sockA").1 exHostData
        "sockA" "tokA" "room_1" 0).1 "tokA" 5).2 = LeaveDeleted "r1".
Proof.
  pose proof (createRoom_then_leaveRoom (registerSocket newRoomManager "tokA" "sockA").1
                exHostData "sockA" "tokA" "room_1" 0 5) as H.
  cbn zeta in H. destruct H as [_ H]; [discriminate|].
  exact (proj1 H).
Defined.

(* ===================================================================== *)
(** * What holds of every room                                            *)
(* ===================================================================== *)

Section Invariant.

Lemma Forall_filter_keep {A} (P Q : A → Prop) `{!∀ x, Decision (Q x)} (l : list A) :
  Forall P l → Forall P (filter Q l).
Proof.
  rewrite !Forall_forall. intros Hall x [_ Hx]%list_elem_of_filter. by apply Hall.
Qed.

Lemma roomOk_setGame (g : Game) (room : Room) : roomOk room → roomOk (r_setGame g room).
Proof. intros H. exact H. Qed.

Lemma roomOk_players (room : Room) (players : list Player) :
  roomOk room → NoDup (p_token <$> players) → Forall deadIfNoLives players →
  players ≠ [] → roomOk (r_setPlayers players room).
Proof.
  intros (_ & [_ Hleft] & Hset & _ & Hstate) Hnd Hdead Hne.
  split_and!; done.
Qed.

Lemma tokens_insert (l : list Player) (i : nat) (p p' : Player) :
  l !! i = Some p → p_token p' = p_token p →
  p_token <$> <[i := p']> l = p_token <$> l.
Proof.
  intros Hi Htok. rewrite list_fmap_insert, Htok.
  apply list_insert_id. by rewrite list_lookup_fmap, Hi.
Qed.

Lemma roomOk_update_player (room : Room) (i : nat) (p p' : Player) :
  roomOk room → r_players room !! i = Some p → p_token p' = p_token p →
  deadIfNoLives p' → roomOk (r_setPlayers (<[i := p']> (r_players room)) room).
Proof.
  intros Hok Hi Htok Hdead. pose proof Hok as (Hnd & [Hlives _] & _ & Hne & _).
  apply roomOk_players; [done| | |].
  - by rewrite (tokens_insert _ _ p).
  - by apply Forall_insert.
  - intros Hnil. apply (f_equal length) in Hnil. rewrite length_insert in Hnil.
    by destruct (r_players room).
Qed.

Lemma roomOk_lookup (room : Room) (i : nat) (p : Player) :
  roomOk room → r_players room !! i = Some p → deadIfNoLives p.
Proof.
  intros (_ & [Hlives _] & _) Hi. rewrite Forall_lookup in Hlives. by eapply Hlives.
Qed.

Lemma serverOk_getRoom (st : Server) (roomId : string) (room : Room) :
  serverOk st → getRoom (roomManager st) roomId = Some room → roomOk room.
Proof. intros Hok Hroom. by eapply (map_Forall_lookup_1 _ _ _ _ Hok). Qed.

Lemma serverOk_putRoom (st : Server) (roomId : string) (room : Room) :
  serverOk st → roomOk room → serverOk (putRoom roomId room st).
Proof. intros Hok Hroom. apply map_Forall_insert_2; [done|exact Hok]. Qed.

Lemma serverOk_startRoomTimer st roomId durationMs now :
  serverOk st → serverOk (startRoomTimer st roomId durationMs now).
Proof.
  intros Hok. unfold startRoomTimer.
  destruct (getRoom _ _) as [room|] eqn:Hroom; [|done].
  apply serverOk_putRoom; [done|]. apply roomOk_setGame. by eapply serverOk_getRoom.
Qed.

Lemma serverOk_pauseRoomGame st roomId reason now :
  serverOk st → serverOk (pauseRoomGame st roomId reason now).1.
Proof.
  intros Hok. unfold pauseRoomGame.
  destruct (getRoom _ _) as [room|] eqn:Hroom; [|done].
  destruct (_ || _); [done|].
  apply serverOk_putRoom; [done|]. apply roomOk_setGame. by eapply serverOk_getRoom.
Qed.

Lemma serverOk_resumeRoomGame st roomId now :
  serverOk st → serverOk (resumeRoomGame st roomId now).1.
Proof.
  intros Hok. unfold resumeRoomGame.
  destruct (getRoom _ _) as [room|] eqn:Hroom; [|done].
  destruct (_ || _); [done|].
  apply serverOk_putRoom; [done|]. apply roomOk_setGame. by eapply serverOk_getRoom.
Qed.

Lemma serverOk_startNextRound st roomId now r1 r2 :
  serverOk st → serverOk (startNextRound st roomId now r1 r2).1.
Proof.
  intros Hok. unfold startNextRound.
  destruct (getRoom _ _) as [room|] eqn:Hroom; [|done].
  destruct (bool_decide _); [done|].
  destruct (pickServerSyllable _ _ _ _ _) as [newSyl used']. cbn [fst].
  apply serverOk_startRoomTimer, serverOk_putRoom; [done|].
  apply roomOk_setGame. by eapply serverOk_getRoom.
Qed.

Lemma serverOk_advanceToNextAlivePlayer st roomId :
  serverOk st → serverOk (advanceToNextAlivePlayer st roomId).1.
Proof.
  intros Hok. unfold advanceToNextAlivePlayer.
  destruct (getRoom _ _) as [room|] eqn:Hroom; [|done].
  destruct (bool_decide _); [done|].
  destruct (List.filter _ _); [done|]. cbn [fst].
  apply serverOk_putRoom; [done|]. apply roomOk_setGame. by eapply serverOk_getRoom.
Qed.

Lemma serverOk_next st roomId now r1 r2 :
  serverOk st →
  serverOk (startNextRound (advanceToNextAlivePlayer st roomId).1 roomId now r1 r2).1.
Proof. intros Hok. by apply serverOk_startNextRound, serverOk_advanceToNextAlivePlayer. Qed.

(** *** The registry *)

Lemma promoted_NoDup (pending : list Spectator) :
  ∀ tokens, NoDup tokens → NoDup (tokens ++ (sp_token <$> promoted tokens pending)).
Proof.
  induction pending as [|spec rest IH]; intros tokens Hnd; cbn [promoted].
  - by rewrite app_nil_r.
  - destruct (decide (sp_token spec ∈ tokens)) as [Hin|Hout]; [by apply IH|].
    rewrite fmap_cons, cons_middle, app_assoc. apply IH.
    apply NoDup_app. split_and!; [done| |apply NoDup_singleton].
    intros x Hx ->%list_elem_of_singleton. done.
Qed.

Lemma registryOk_createRoom rm roomData hostSocketId hostToken freshId now :
  registryOk rm →
  registryOk (createRoom rm roomData hostSocketId hostToken freshId now).1.
Proof.
  intros Hok. apply map_Forall_insert_2; [|exact Hok].
  split_and!; [| | |done..].
  - unfold tokensInv. cbn. apply NoDup_singleton.
  - split; cbn; [|done]. by apply Forall_singleton.
  - split; cbn; [lia|done].
Qed.

Lemma registryOk_joinRoom rm roomId playerData socketId token :
  registryOk rm → registryOk (joinRoom rm roomId playerData socketId token).1.
Proof.
  intros Hok. unfold joinRoom.
  destruct (rooms rm !! roomId) as [room|] eqn:Hroom; [|done].
  pose proof (map_Forall_lookup_1 _ _ _ _ Hok Hroom) as Hr. cbn beta in Hr.
  destruct (list_find _ (r_players room)) as [[i existing]|] eqn:Hfind.
  - apply list_find_Some in Hfind as (Hi & _ & _).
    apply map_Forall_insert_2; [|exact Hok].
    apply (roomOk_update_player room i existing); [done..|].
    exact (roomOk_lookup room i existing Hr Hi).
  - destruct (maxPlayers _ <=? _); [done|].
    apply list_find_token_None in Hfind.
    pose proof Hr as (Hnd & [Hlives Hleft] & [Hstart _] & _).
    assert (∀ player, p_token player = token → deadIfNoLives player →
              roomOk (r_setPlayers (r_players room ++ [player]) room)) as Hadd.
    { intros player Htok Hdead. apply roomOk_players; [done| | |].
      - rewrite fmap_app. apply NoDup_app. split_and!; [done| |apply NoDup_singleton].
        intros x Hx ->%list_elem_of_singleton. cbn in Hx. by rewrite Htok in Hx.
      - apply Forall_app. split; [done|]. by apply Forall_singleton.
      - by destruct (r_players room). }
    case_bool_decide as Hplaying.
    + destruct (negb _ && negb _); [done|]. cbn [fst].
      apply map_Forall_insert_2; [|exact Hok]. apply Hadd; [done|].
      unfold deadIfNoLives. cbn. unfold findRecentlyLeft.
      destruct (r_recentlyLeft room) as [l|]; cbn; [|lia].
      destruct (list_find _ l) as [[j e]|] eqn:He; cbn; [|lia].
      apply list_find_Some in He as (He & _). cbn in Hleft.
      rewrite Forall_lookup in Hleft. by apply (Hleft j e).
    + cbn [fst]. apply map_Forall_insert_2; [|exact Hok]. apply Hadd; [done|].
      unfold deadIfNoLives. cbn. lia.
Qed.

Lemma registryOk_leaveRoom rm token now :
  registryOk rm → registryOk (leaveRoom rm token now).1.
Proof.
  intros Hok. unfold leaveRoom.
  destruct (sessions rm !! token) as [session|]; [|done].
  destruct (s_roomId session) as [roomId|]; [|done].
  destruct (rooms rm !! roomId) as [room|] eqn:Hroom; [|done].
  pose proof (map_Forall_lookup_1 _ _ _ _ Hok Hroom) as Hr. cbn beta in Hr.
  set (room1 := match snd <$> list_find _ (r_players room) with
                | Some lp => _ | None => _ end).
  assert (roomOk room1) as Hr1.
  { unfold room1. destruct (list_find _ _) as [[i lp]|] eqn:Hfind; cbn; [|done].
    destruct (bool_decide _); [|done].
    apply list_find_Some in Hfind as (Hi & _).
    destruct Hr as (Hnd & [Hlives Hleft] & Hset & Hne & Hstate).
    split_and!; try done. split; [done|]. cbn. apply Forall_app. split; [done|].
    apply Forall_singleton. cbn. rewrite Forall_lookup in Hlives. by apply (Hlives i). }
  clearbody room1. cbn zeta.
  destruct (r_players (r_setPlayers _ _)) as [|next rest] eqn:Hrest.
  { cbn [fst]. apply map_Forall_delete; exact Hok. }
  cbn [r_players r_setPlayers] in Hrest.
  assert (roomOk (r_setPlayers (next :: rest) room1)) as Hr2.
  { rewrite <- Hrest. pose proof Hr1 as (Hnd & [Hlives Hleft] & _).
    apply roomOk_players; [done| | |by rewrite Hrest].
    - eapply sublist_NoDup; first [exact Hnd | apply fmap_sublist, sublist_filter].
    - by apply Forall_filter_keep. }
  rewrite Hrest.
  destruct (bool_decide (r_hostToken room = token)); cbn [fst].
  - unfold promoteFirst. cbn [r_players r_setPlayers fst rooms].
    apply map_Forall_insert_2; [|exact Hok].
    destruct Hr2 as (Hnd & [Hlives Hleft] & Hset & Hne & Hstate).
    split_and!; try done. split; [|done]. cbn. apply Forall_cons.
    apply Forall_cons in Hlives as [Hnext Hrst]. done.
  - apply map_Forall_insert_2; [done|exact Hok].
Qed.

Lemma registryOk_endGame rm roomId :
  registryOk rm → registryOk (endGame rm roomId).1.
Proof.
  intros Hok. unfold endGame.
  destruct (rooms rm !! roomId) as [room|] eqn:Hroom; [|done].
  pose proof (map_Forall_lookup_1 _ _ _ _ Hok Hroom) as Hr. cbn beta in Hr.
  destruct (promoteSpectator_fold roomId (startingLives (r_settings room))
              (r_pendingSpectators room) (r_players room) [] (sessions rm)) as [sess' Hfold].
  cbn zeta in Hfold. rewrite Hfold. cbn [fst].
  apply map_Forall_insert_2; [|exact Hok].
  destruct Hr as (Hnd & [Hlives Hleft] & Hset & Hne & Hstate).
  split_and!; cbn; try done.
  - unfold tokensInv. cbn. rewrite <- list_fmap_compose.
    change (p_token ∘ resetForLobby (startingLives (r_settings room))) with p_token.
    rewrite fmap_app, <- list_fmap_compose. by apply promoted_NoDup.
  - split; [|done]. apply Forall_fmap, Forall_true. intros p. unfold deadIfNoLives. cbn.
    destruct Hset as [Hstart _]. lia.
  - intros Hnil%fmap_nil_inv. by destruct (r_players room).
Qed.

Lemma registryOk_markPlayer v rm token :
  registryOk rm → registryOk (markPlayer v rm token).1.
Proof.
  intros Hok. unfold markPlayer.
  destruct (sessions rm !! token) as [session|]; [|done].
  destruct (s_roomId session) as [roomId|]; [|done].
  destruct (rooms rm !! roomId) as [room|] eqn:Hroom; [|done].
  pose proof (map_Forall_lookup_1 _ _ _ _ Hok Hroom) as Hr. cbn beta in Hr.
  destruct (list_find _ _) as [[i player]|] eqn:Hfind; [|done].
  apply list_find_Some in Hfind as (Hi & _).
  apply map_Forall_insert_2; [|exact Hok].
  apply (roomOk_update_player room i player); [done..|].
  exact (roomOk_lookup room i player Hr Hi).
Qed.

Lemma registryOk_startGame rm roomId now :
  registryOk rm → registryOk (startGame rm roomId now).1.
Proof.
  intros Hok. unfold startGame.
  destruct (rooms rm !! roomId) as [room|] eqn:Hroom; [|done].
  pose proof (map_Forall_lookup_1 _ _ _ _ Hok Hroom) as Hr. cbn beta in Hr.
  apply map_Forall_insert_2; [|exact Hok].
  destruct Hr as (Hnd & [Hlives Hleft] & Hset & Hne & Hstate).
  split_and!; cbn; try done.
  - unfold tokensInv. cbn. by rewrite <- list_fmap_compose.
  - split; [|done]. apply Forall_fmap, Forall_true. intros p. unfold deadIfNoLives. cbn.
    destruct Hset as [Hstart _]. lia.
  - intros Hnil%fmap_nil_inv. done.
Qed.

Lemma registryOk_step rm rm' :
  registryOk rm → registry_step rm rm' → registryOk rm'.
Proof.
  intros Hok Hstep. destruct Hstep as [tok sock|sock|rm' Hm|tok|tok|rid now].
  - unfold registerSocket. by destruct (sessions rm !! tok).
  - done.
  - destruct Hm.
    + by apply registryOk_createRoom.
    + by apply registryOk_joinRoom.
    + by apply registryOk_leaveRoom.
    + by apply registryOk_endGame.
  - by apply registryOk_markPlayer.
  - by apply registryOk_markPlayer.
  - by apply registryOk_startGame.
Qed.


(** *** The coordinator *)

Lemma serverOk_purgeStep st roomId token now :
  serverOk st → serverOk (purgeStep st roomId token now).
Proof.
  intros Hok. unfold purgeStep. destruct (getRoom _ _) as [room|] eqn:Hroom; [|done].
  apply serverOk_putRoom; [done|].
  pose proof (serverOk_getRoom _ _ _ Hok Hroom) as Hr.
  unfold purgeRecentlyLeft. destruct (r_recentlyLeft room) as [l|] eqn:Hl; [|done].
  destruct Hr as (Hnd & [Hlives Hleft] & Hset & Hne & Hstate).
  split_and!; try done. split; [done|]. cbn. rewrite Hl in Hleft.
  by apply Forall_filter_keep.
Qed.

Lemma serverOk_clearTimer st roomId : serverOk st → serverOk (clearTimer st roomId).
Proof.
  intros Hok. unfold clearTimer. destruct (getRoom _ _) as [room|] eqn:Hroom; [|done].
  apply serverOk_putRoom; [done|]. apply roomOk_setGame. by eapply serverOk_getRoom.
Qed.

Lemma serverOk_cleanupRooms st now : serverOk st → serverOk (cleanupRooms st now).
Proof.
  intros Hok roomId room [Hroom _]%map_lookup_filter_Some.
  by eapply (map_Forall_lookup_1 _ _ _ _ Hok).
Qed.

Lemma serverOk_handleLoseLife st roomId playerSocketId now r1 r2 :
  serverOk st → serverOk (handleLoseLife st roomId playerSocketId now r1 r2).
Proof.
  intros Hok. unfold handleLoseLife.
  destruct (getRoom _ _) as [room|] eqn:Hroom; [|done].
  destruct (bool_decide _); [done|]. destruct (paused _); [done|].
  destruct (list_find _ _) as [[i player]|] eqn:Hfind; [|done].
  destruct (negb _); [done|].
  apply list_find_Some in Hfind as (Hi & _).
  pose proof (serverOk_getRoom _ _ _ Hok Hroom) as Hr.
  destruct (p_lives (p_setLives _ _) <=? 0) eqn:Hzero.
  - match goal with |- context [putRoom roomId ?r st] =>
      assert (serverOk (putRoom roomId r st)) as Hok1
    end.
    { apply serverOk_putRoom; [done|].
      by apply (roomOk_update_player room i player). }
    cbn zeta. destruct (length _ <=? 1).
    + apply registryOk_endGame. exact Hok1.
    + by apply serverOk_next.
  - match goal with |- context [putRoom roomId ?r st] =>
      assert (serverOk (putRoom roomId r st)) as Hok1
    end.
    { apply serverOk_putRoom; [done|].
      apply (roomOk_update_player room i player); [done..|].
      apply Nat.leb_gt in Hzero. intros Hl. cbn in Hl, Hzero. lia. }
    by apply serverOk_next.
Qed.

Lemma serverOk_newSyllable st token msg now r1 r2 :
  serverOk st → serverOk (on_newSyllable st token msg now r1 r2).1.
Proof.
  intros Hok. unfold on_newSyllable.
  destruct (getRoom _ _) as [room|] eqn:Hroom; [|done].
  pose proof (serverOk_getRoom _ _ _ Hok Hroom) as Hr.
  destruct (bool_decide _); [done|]. destruct (negb _); [done|].
  destruct (_ && _).
  - apply serverOk_putRoom; [done|]. by apply roomOk_setGame.
  - apply serverOk_startNextRound, serverOk_putRoom; [done|].
    destruct (ns_playerIndex msg); [by apply roomOk_setGame|done].
Qed.

Lemma serverOk_updateSettings st token roomId patch :
  serverOk st → serverOk (on_updateSettings st token roomId patch).1.
Proof.
  intros Hok. unfold on_updateSettings. destruct token as [tok|]; [|done].
  destruct (_ || _); [done|].
  destruct (getRoom _ _) as [room|] eqn:Hroom; [|done].
  pose proof (serverOk_getRoom _ _ _ Hok Hroom) as (Hnd & Hlives & [Hstart Hextra] & Hne & Hstate).
  apply serverOk_putRoom; [done|].
  split_and!; try done. split; cbn.
  - destruct (sp_startingLives patch) as [v|]; [|done].
    destruct (v =? 0)%Z; [done|]. lia.
  - destruct (sp_extraTurnSeconds patch) as [v|]; [lia|done].
Qed.

Lemma serverOk_toggleReady st socketId token roomId :
  serverOk st → serverOk (on_toggleReady st socketId token roomId).1.
Proof.
  intros Hok. unfold on_toggleReady.
  destruct (getRoom _ _) as [room|] eqn:Hroom; [|done].
  destruct token as [tok|]; [|done].
  destruct (list_find _ _) as [[i player]|] eqn:Hfind; [|done].
  destruct (p_isHost player); [done|].
  apply list_find_Some in Hfind as (Hi & _).
  pose proof (serverOk_getRoom _ _ _ Hok Hroom) as Hr.
  apply serverOk_putRoom; [done|].
  apply (roomOk_update_player room i player); [done..|].
  exact (roomOk_lookup room i player Hr Hi).
Qed.

Lemma serverOk_submitWord st socketId token msg now r1 r2 :
  serverOk st → serverOk (on_submitWord st socketId token msg now r1 r2).1.
Proof.
  intros Hok. unfold on_submitWord.
  destruct (getRoom _ _) as [room|] eqn:Hroom; [|done].
  destruct token as [tok|]; [|done].
  destruct (bool_decide _); [done|].
  destruct (list_find _ _) as [[pi player]|] eqn:Hfind; [|done].
  destruct (negb (p_isAlive player)); [done|].
  apply list_find_Some in Hfind as (Hi & _).
  pose proof (serverOk_getRoom _ _ _ Hok Hroom) as Hr.
  destruct (filter _ _); [|exact Hok].
  cbn zeta.
  match goal with |- context [if ?b then (?s, [(toSocket _, wordRejected _ _ _ "Pas votre tour")]) else _] =>
    destruct b; [exact Hok|]
  end.
  assert (roomOk (r_setPlayers (<[pi := p_setSocketId socketId player]> (r_players room)) room))
    as Hr1.
  { apply (roomOk_update_player room pi player); [done..|].
    exact (roomOk_lookup room pi player Hr Hi). }
  match goal with |- context [putRoom (sw_roomId msg) ?r ?s] =>
    assert (serverOk (putRoom (sw_roomId msg) r s)) as Hok2
      by (apply serverOk_putRoom; [exact Hok|exact Hr1])
  end.
  destruct (negb _); [exact Hok2|].
  destruct (_ && _); [exact Hok2|].
  destruct (dictHas _ _); [|exact Hok2].
  match goal with |- context [advanceToNextAlivePlayer ?s3 ?rid] =>
    assert (serverOk s3) as Hok3
  end.
  { apply serverOk_putRoom; [exact Hok2|]. apply roomOk_setGame.
    apply (roomOk_update_player _ pi (p_setSocketId socketId player)); [exact Hr1| |done|].
    - cbn. apply list_lookup_insert_eq. by eapply lookup_lt_Some.
    - exact (roomOk_lookup room pi player Hr Hi). }
  match goal with |- context [advanceToNextAlivePlayer ?s3 ?rid] =>
    pose proof (serverOk_advanceToNextAlivePlayer s3 rid Hok3) as Hok4;
    destruct (advanceToNextAlivePlayer s3 rid) as [st4 ev1]
  end.
  pose proof (serverOk_startNextRound st4 (sw_roomId msg) now r1 r2 Hok4) as Hok5.
  destruct (startNextRound st4 _ _ _ _) as [st5 ev2]. exact Hok5.
Qed.

Lemma startGame_result rm roomId now rm' gameRoom :
  startGame rm roomId now = (rm', Some gameRoom) → rooms rm' !! roomId = Some gameRoom.
Proof.
  unfold startGame. destruct (rooms rm !! roomId) as [room|]; [|done].
  intros [= <- <-]. cbn. apply lookup_insert_eq.
Qed.

Lemma refreshSocket_fields rm p :
  p_token (refreshSocket rm p) = p_token p ∧
  p_lives (refreshSocket rm p) = p_lives p ∧
  p_isAlive (refreshSocket rm p) = p_isAlive p.
Proof.
  unfold refreshSocket. destruct (sessions rm !! p_token p) as [sess|]; [|done].
  destruct (s_socketId sess) as [s|]; [|done]. by destruct (Js.truthy s).
Qed.

Lemma serverOk_startGame st token roomId scenario now :
  serverOk st → serverOk (on_startGame st token roomId scenario now).
Proof.
  intros Hok. unfold on_startGame. destruct token as [tok|]; [|done].
  destruct (_ || _); [done|].
  match goal with |- context [startGame (roomManager ?s1)] =>
    assert (serverOk s1) as Hok1; [|generalize dependent s1; intros st1 Hok1]
  end.
  { destruct (getRoom _ _) as [room|] eqn:Hroom; [|done].
    destruct (orNull scenario); [|done].
    apply serverOk_putRoom; [done|]. exact (serverOk_getRoom _ _ _ Hok Hroom). }
  pose proof (registryOk_startGame (roomManager st1) roomId now Hok1) as Hok2.
  destruct (startGame _ _ _) as [rm' [gameRoom|]] eqn:Hstart; [|exact Hok2].
  apply startGame_result in Hstart. cbn [fst] in Hok2.
  pose proof (map_Forall_lookup_1 _ _ _ _ Hok2 Hstart) as Hr. cbn beta in Hr.
  apply map_Forall_insert_2; [|exact Hok2].
  destruct Hr as (Hnd & [Hlives Hleft] & Hset & Hne & Hstate).
  apply roomOk_players; [done| | |].
  - rewrite <- list_fmap_compose.
    erewrite list_fmap_ext; [exact Hnd|]. intros i p _. cbn.
    by destruct (refreshSocket_fields rm' (p_setIsAlive true
      (p_setLives (if startingLives (r_settings gameRoom) =? 0 then 2
                   else startingLives (r_settings gameRoom)) p))) as (-> & _).
  - apply Forall_fmap, Forall_true. intros p. unfold deadIfNoLives. cbn.
    match goal with |- context [refreshSocket rm' ?q] =>
      destruct (refreshSocket_fields rm' q) as (_ & -> & ->)
    end. cbn. by destruct (Nat.eqb_spec (startingLives (r_settings gameRoom)) 0).
  - intros Hnil%fmap_nil_inv. done.
Qed.

Lemma serverOk_step st st' : serverOk st → server_step st st' → serverOk st'.
Proof.
  intros Hok Hstep. destruct Hstep.
  - by eapply registryOk_step.
  - by apply serverOk_purgeStep.
  - by apply serverOk_startRoomTimer.
  - by apply serverOk_pauseRoomGame.
  - by apply serverOk_resumeRoomGame.
  - by apply serverOk_startNextRound.
  - by apply serverOk_advanceToNextAlivePlayer.
  - by apply serverOk_handleLoseLife.
  - by apply serverOk_newSyllable.
  - by apply serverOk_updateSettings.
  - by apply serverOk_toggleReady.
  - by apply serverOk_submitWord.
  - unfold on_disconnect_submissions. by destruct token.
  - by apply serverOk_startGame.
  - by apply serverOk_clearTimer.
  - by apply serverOk_cleanupRooms.
  - unfold stampDisconnect. destruct (sessions _ !! token) as [session|]; [|done].
    destruct (s_roomId session) as [rid|]; [|done]. destruct (Js.truthy rid); [|done].
    by destruct (getRoom _ rid).
Qed.

Lemma serverOk_reachable idx st : rtc server_step (newServer idx) st → serverOk st.
Proof.
  intros Hreach. eapply (rtc_ind_r serverOk (newServer idx)); [| |exact Hreach].
  - apply map_Forall_empty.
  - intros y z _ Hstep Hy. by eapply serverOk_step.
Qed.

End Invariant.

(** X10: in every state reached from the start of the server by the
    operations of [server_step], no two players of a room carry the same
    token: [joinRoom] and [endGame] add a player only under a token that
    is not in the room. *)
Theorem players_have_distinct_tokens (idx : Index) (st : Server) (roomId : string)
    (room : Room) :
  rtc server_step (newServer idx) st →
  getRoom (roomManager st) roomId = Some room →
  NoDup (p_token <$> r_players room).
Proof.
  intros Hreach Hroom.
  by destruct (serverOk_getRoom _ _ _ (serverOk_reachable _ _ Hreach) Hroom) as (Hnd & _).
Qed.

Lemma players_have_distinct_tokens_witness :
  NoDup (p_token <$> r_players exCreatedRoom).
Proof.
  apply (players_have_distinct_tokens exIndex exCreated "r1").
  - apply rtc_once, sv_registry, reg_membership, step_createRoom.
  - vm_compute. reflexivity.
Defined.





(** X13: in every state reached from the start of the server by the
    operations of [server_step], every room has a player and none is left
    in the state [finished]: the clean-up interval finds nothing to
    remove. *)
Theorem cleanupRooms_removes_nothing (idx : Index) (st : Server) (now : Z) :
  rtc server_step (newServer idx) st →
  cleanupRooms st now = st ∧
  ∀ roomId room, getRoom (roomManager st) roomId = Some room →
    r_players room ≠ [] ∧ r_gameState room ≠ finished.
Proof.
  intros Hreach. pose proof (serverOk_reachable _ _ Hreach) as Hok.
  assert (∀ roomId room, getRoom (roomManager st) roomId = Some room →
            r_players room ≠ [] ∧ r_gameState room ≠ finished) as Hrooms.
  { intros roomId room Hroom.
    by destruct (serverOk_getRoom _ _ _ Hok Hroom) as (_ & _ & _ & Hne & Hstate). }
  split; [|done]. unfold cleanupRooms.
  rewrite map_filter_id.
  - by destruct st as [[rs ss sk] ix ws].
  - intros roomId room Hroom [Hempty|[Hfin _]]; cbn in *.
    + destruct (Hrooms roomId room Hroom) as [Hne _]. by destruct (r_players room).
    + by destruct (Hrooms roomId room Hroom) as [_ Hstate].
Qed.

Lemma cleanupRooms_removes_nothing_witness :
  cleanupRooms exCreated 7200000 = exCreated.
Proof.
  apply (cleanupRooms_removes_nothing exIndex exCreated 7200000).
  apply rtc_once, sv_registry, reg_membership, step_createRoom.
Defined.

(* ===================================================================== *)
(** * Joining, leaving and coming back                                    *)
(* ===================================================================== *)

(** X14: [joinRoom] never takes a room beyond its capacity: the room it
    leaves has at most as many players as before or as [maxPlayers], and
    a token that is not in a full room is refused. *)
Theorem joinRoom_respects_capacity (rm : RoomManager) (roomId : string)
    (playerData : PlayerData) (socketId token : string) (room : Room) :
  rooms rm !! roomId = Some room →
  let j := joinRoom rm roomId playerData socketId token in
  (∃ room',
     rooms j.1 !! roomId = Some room' ∧
     maxPlayers (r_settings room') = maxPlayers (r_settings room) ∧
     length (r_players room')
       ≤ Nat.max (length (r_players room)) (maxPlayers (r_settings room))) ∧
  (token ∉ p_token <$> r_players room →
   maxPlayers (r_settings room) ≤ length (r_players room) →
   j = (rm, JoinError "Salle pleine")).
Proof.
  intros Hroom. cbn zeta. unfold joinRoom. rewrite Hroom. split.
  - destruct (list_find _ _) as [[i existing]|].
    { eexists. split; [apply lookup_insert_eq|]. cbn. rewrite length_insert. lia. }
    destruct (Nat.leb_spec (maxPlayers (r_settings room)) (length (r_players room)))
      as [Hfull|Hfree].
    { exists room. split; [done|]. lia. }
    destruct (bool_decide _).
    + destruct (negb _ && negb _).
      { exists room. split; [done|]. lia. }
      eexists. split; [apply lookup_insert_eq|]. cbn. rewrite length_app. cbn. lia.
    + eexists. split; [apply lookup_insert_eq|]. cbn. rewrite length_app. cbn. lia.
  - intros Hout%list_find_token_None Hfull. rewrite Hout.
    apply Nat.leb_le in Hfull. by rewrite Hfull.
Qed.

Lemma joinRoom_respects_capacity_witness :
  joinRoom exFullManager "r1" (mkPlayerData (Some "Zoe") None) "sock7" "t7"
  = (exFullManager, JoinError "Salle pleine").
Proof.
  apply (joinRoom_respects_capacity exFullManager "r1" _ "sock7" "t7" exFullRoom).
  - vm_compute. reflexivity.
  - apply (bool_decide_unpack _). vm_compute. exact I.
  - vm_compute. lia.
Defined.

Section Rejoin.

Lemma filter_token_shorter (token : string) (players : list Player) (p : Player) :
  p ∈ players → p_token p = token →
  length (filter (λ q, p_token q ≠ token) players) < length players.
Proof.
  intros Hin Htok. induction players as [|q l IH]; [by apply elem_of_nil in Hin|].
  rewrite filter_cons. apply elem_of_cons in Hin as [<-|Hin].
  - rewrite decide_False by (intros H; by apply H). cbn.
    pose proof (length_filter (λ q, p_token q ≠ token) l). lia.
  - specialize (IH Hin). destruct (decide _); cbn; lia.
Qed.

Lemma list_find_app_last {A} (P : A → Prop) `{!∀ x, Decision (P x)} (l : list A) (x : A) :
  list_find P l = None → P x → list_find P (l ++ [x]) = Some (length l, x).
Proof.
  intros Hnone Hx. apply list_find_Some. rewrite list_find_None, Forall_forall in Hnone.
  split_and!; [|done|].
  - rewrite lookup_app_r by lia. by rewrite Nat.sub_diag.
  - intros j y Hj Hlt. rewrite lookup_app_l in Hj by done.
    apply Hnone. by eapply list_elem_of_lookup_2.
Qed.

End Rejoin.

(** X15: a player who leaves a room during the game and joins it again
    is taken back with the lives, the words and the liveness they had on
    leaving, at the end of the player list, ready and without the host
    flag, even when they were the host. *)
Theorem rejoin_restores_player (rm : RoomManager) (token : string) (now : Z)
    (session : Session) (roomId : string) (room : Room) (i : nat) (p : Player)
    (playerData : PlayerData) (socketId : string) :
  sessions rm !! token = Some session → s_roomId session = Some roomId →
  rooms rm !! roomId = Some room → r_gameState room = playing →
  list_find (λ q, p_token q = token) (r_players room) = Some (i, p) →
  findRecentlyLeft room token = None →
  filter (λ q, p_token q ≠ token) (r_players room) ≠ [] →
  length (r_players room) ≤ maxPlayers (r_settings room) →
  let rm1 := (leaveRoom rm token now).1 in
  ∃ room1 rm2 room2,
    rooms rm1 !! roomId = Some room1 ∧
    joinRoom rm1 roomId playerData socketId token = (rm2, JoinOk room2 true) ∧
    r_players room2 =
      r_players room1 ++
      [mkPlayer token socketId (p_name p) (p_avatar p) false true
         (p_lives p) (p_wordsFound p) (p_isAlive p) false].
Proof.
  intros Hs Hrid Hroom Hplaying Hfind Hfresh Hrest Hcap. cbn zeta.
  unfold leaveRoom. rewrite Hs, Hrid, Hroom, Hfind. cbn [fmap option_fmap option_map snd].
  rewrite bool_decide_true by done. cbn zeta.
  cbn [r_players r_setPlayers r_setRecentlyLeft].
  destruct (filter (λ q, p_token q ≠ token) (r_players room)) as [|next rest] eqn:Hfilter;
    [done|]. clear Hrest.
  pose proof Hfind as (Hi & Htok & _)%list_find_Some.
  assert (p ∈ r_players room) as Hin by (by eapply list_elem_of_lookup_2).
  pose proof (filter_token_shorter token (r_players room) p Hin Htok) as Hshort.
  rewrite Hfilter in Hshort. cbn [length] in Hshort.
  assert (Forall (λ q, p_token q ≠ token) (next :: rest)) as Hothers.
  { rewrite <- Hfilter. apply Forall_forall. by intros q [? _]%list_elem_of_filter. }
  assert (list_find (λ e : Player * Z, p_token (fst e) = token)
            (default [] (r_recentlyLeft room) ++ [(p, now)])
          = Some (length (default [] (r_recentlyLeft room)), (p, now))) as Hleft.
  { apply list_find_app_last; [|done]. unfold findRecentlyLeft in Hfresh.
    destruct (r_recentlyLeft room) as [l|]; [|done]. cbn.
    by destruct (list_find _ l). }
  set (left' := Some (default [] (r_recentlyLeft room) ++ [(p, now)])) in *.
  apply Forall_cons in Hothers as [Hnext Hrst].
  assert (∀ players' hostToken' hostName hostAvatar rooms' sessions',
            Forall (λ q, p_token q ≠ token) players' → hostToken' ≠ token →
            length players' = S (length rest) →
            let room1 :=
              mkRoom (r_id room) (r_name room) hostName hostAvatar
                hostToken' (r_pendingSpectators room) players' (r_gameState room)
                (r_settings room) (r_game room) (r_createdAt room) left' in
            let rm1 := mkRoomManager (<[roomId := room1]> rooms') sessions' (sockets rm) in
            ∃ room1' rm2 room2,
              rooms rm1 !! roomId = Some room1' ∧
              joinRoom rm1 roomId playerData socketId token = (rm2, JoinOk room2 true) ∧
              r_players room2 =
                r_players room1' ++
                [mkPlayer token socketId (p_name p) (p_avatar p) false true
                   (p_lives p) (p_wordsFound p) (p_isAlive p) false]) as Hjoin.
  { intros players' hostToken' hostName hostAvatar rooms' sessions' Hnone Hhost Hlen.
    cbn zeta. eexists.
    unfold joinRoom. cbn [rooms]. rewrite lookup_insert_eq. cbn [r_players r_settings].
    assert (list_find (λ q, p_token q = token) players' = None) as ->.
    { apply list_find_None. eapply Forall_impl; [exact Hnone|]. by intros q Hq. }
    destruct (Nat.leb_spec (maxPlayers (r_settings room)) (length players')); [lia|].
    cbn [r_gameState r_hostToken]. rewrite (bool_decide_true _ Hplaying).
    rewrite (bool_decide_false (hostToken' = token)) by done.
    unfold findRecentlyLeft. cbn [r_recentlyLeft]. unfold left'. rewrite Hleft.
    cbn [fmap option_fmap option_map fst snd negb andb].
    rewrite bool_decide_true by (by eexists). cbn [negb andb].
    do 2 eexists. split; [reflexivity|]. split; [reflexivity|]. reflexivity. }
  case_bool_decide as Hhost.
  - unfold promoteFirst. cbn [r_players r_setPlayers fst].
    apply (Hjoin (p_setIsHost true next :: rest) (p_token next)); [|done..].
    by apply Forall_cons.
  - cbn [fst]. apply (Hjoin (next :: rest) (r_hostToken room)); [|done..].
    by apply Forall_cons.
Qed.

Lemma rejoin_restores_player_witness :
  ∃ room1 rm2 room2,
    rooms (leaveRoom (roomManager exPlaying) "tokB" 500).1 !! "r1" = Some room1 ∧
    joinRoom (leaveRoom (roomManager exPlaying) "tokB" 500).1 "r1"
      (mkPlayerData None None) "sockB2" "tokB" = (rm2, JoinOk room2 true) ∧
    r_players room2 =
      r_players room1 ++ [mkPlayer "tokB" "sockB2" "Bob" "" false true 2 0 true false].
Proof.
  eapply (rejoin_restores_player (roomManager exPlaying) "tokB" 500 _ "r1" _ 1
            (mkPlayer "tokB" "sockB" "Bob" "" false false 2 0 true false)).
  - vm_compute. reflexivity.
  - reflexivity.
  - vm_compute. reflexivity.
  - reflexivity.
  - vm_compute. reflexivity.
  - reflexivity.
  - vm_compute. discriminate.
  - vm_compute. lia.
Defined.

(** X16: marking a player as reconnected undoes the mark of a
    disconnection: the registry is the one [markReconnected] alone would
    have given. *)
Theorem markReconnected_after_markDisconnected (rm : RoomManager) (token : string) :
  markReconnected (markDisconnected rm token).1 token = markReconnected rm token.
Proof.
  unfold markReconnected, markDisconnected, markPlayer.
  destruct (sessions rm !! token) as [session|] eqn:Hs.
  2: { cbn [fst]. by rewrite Hs. }
  destruct (s_roomId session) as [roomId|] eqn:Hrid.
  2: { cbn [fst]. by rewrite Hs, Hrid. }
  destruct (rooms rm !! roomId) as [room|] eqn:Hroom.
  2: { cbn [fst]. by rewrite Hs, Hrid, Hroom. }
  destruct (list_find _ (r_players room)) as [[i player]|] eqn:Hfind.
  2: { cbn [fst]. by rewrite Hs, Hrid, Hroom, Hfind. }
  cbn [fst sessions rooms rm_setRooms]. rewrite Hs, Hrid, lookup_insert_eq.
  cbn [r_players r_setPlayers].
  rewrite (list_find_insert_same _ _ i player (p_setDisconnected true player) Hfind)
    by (by apply list_find_Some in Hfind as (_ & ? & _)).
  rewrite list_insert_insert_eq, insert_insert_eq. reflexivity.
Qed.

(* ===================================================================== *)
(** * Turns, pauses and lives                                             *)
(* ===================================================================== *)

Section Turns.

Lemma getRoom_putRoom st roomId room :
  getRoom (roomManager (putRoom roomId room st)) roomId = Some room.
Proof. unfold getRoom. cbn. apply lookup_insert_eq. Qed.

Lemma putRoom_putRoom st roomId room room' :
  putRoom roomId room' (putRoom roomId room st) = putRoom roomId room' st.
Proof. unfold putRoom. cbn. by rewrite insert_insert_eq. Qed.


End Turns.



(** X18: a pause followed by a resumption gives the turn the time it had
    left when it was paused, and nothing more; while the game is paused a
    second pause changes nothing. *)
Theorem pause_then_resume (st : Server) (roomId reason reason' : string) (room : Room)
    (e now1 now1' now2 : Z) :
  getRoom (roomManager st) roomId = Some room → r_gameState room = playing →
  paused (r_game room) = false → timerEndTime (r_game room) = Some e →
  (0 ≤ now1 < e)%Z →
  let st1 := (pauseRoomGame st roomId reason now1).1 in
  pauseRoomGame st1 roomId reason' now1' = (st1, []) ∧
  ∃ room',
    getRoom (roomManager (resumeRoomGame st1 roomId now2).1) roomId = Some room' ∧
    paused (r_game room') = false ∧
    timerEndTime (r_game room') = Some (now2 + (e - now1))%Z ∧
    currentSyllable (r_game room') = currentSyllable (r_game room) ∧
    currentPlayerIndex (r_game room') = currentPlayerIndex (r_game room) ∧
    roundNumber (r_game room') = roundNumber (r_game room) ∧
    r_players room' = r_players room.
Proof.
  intros Hroom Hplaying Hpaused Hend Hnow. cbn zeta.
  set (g := r_game room) in *.
  assert ((pauseRoomGame st roomId reason now1).1 =
          putRoom roomId
            (r_setGame
               (mkGame (currentSyllable g) (currentPlayerIndex g) (roundNumber g)
                  (startTime g) (timer g) (Some e) (timerTotal g) true
                  (Some (e - now1)%Z) (Some now1) (usedSyllables g)
                  (serverControlledUntil g)) room) st) as ->.
  { unfold pauseRoomGame. rewrite Hroom. fold g. rewrite Hpaused, Hend.
    rewrite bool_decide_false by (intros H; by apply H). cbn [orb fst].
    destruct (Z.eqb_spec e 0) as [->|_]; [lia|].
    by rewrite Z.max_r by lia. }
  split.
  - unfold pauseRoomGame. rewrite getRoom_putRoom. cbn [r_gameState r_setGame r_game paused].
    rewrite bool_decide_false by (intros H; by apply H). reflexivity.
  - unfold resumeRoomGame. rewrite getRoom_putRoom.
    cbn [r_gameState r_setGame r_game paused pausedRemaining].
    rewrite bool_decide_false by (intros H; by apply H). cbn [orb negb fst].
    eexists. split; [apply getRoom_putRoom|]. cbn. unfold orZ.
    destruct (Z.eqb_spec (e - now1) 0); [lia|]. done.
Qed.

Lemma pause_then_resume_witness :
  ∃ room',
    getRoom (roomManager
               (resumeRoomGame (pauseRoomGame exPlaying "r1" "" 5000).1 "r1" 20000).1) "r1"
      = Some room' ∧
    timerEndTime (r_game room') = Some 23000%Z.
Proof.
  assert (getRoom (roomManager exPlaying) "r1" = Some exPlayingRoom) as Hroom0
    by (vm_compute; reflexivity).
  destruct (pause_then_resume exPlaying "r1" "" "" exPlayingRoom 8000 5000 6000 20000
              Hroom0 eq_refl eq_refl eq_refl) as [_ (room' & Hroom & _ & Hend & _)]; [lia|].
  exists room'. split; [exact Hroom|exact Hend].
Defined.

Section Rounds.

Lemma r_setGame_id (room : Room) : r_setGame (r_game room) room = room.
Proof. by destruct room. Qed.

Lemma advanceToNextAlivePlayer_room st roomId room :
  getRoom (roomManager st) roomId = Some room →
  ∃ g,
    getRoom (roomManager (advanceToNextAlivePlayer st roomId).1) roomId
      = Some (r_setGame g room) ∧
    roundNumber g = roundNumber (r_game room) ∧
    index (advanceToNextAlivePlayer st roomId).1 = index st.
Proof.
  intros Hroom. unfold advanceToNextAlivePlayer. rewrite Hroom.
  assert (∃ g, getRoom (roomManager st) roomId = Some (r_setGame g room) ∧
               roundNumber g = roundNumber (r_game room) ∧ index st = index st) as Hsame.
  { exists (r_game room). by rewrite r_setGame_id. }
  destruct (bool_decide _); [done|]. destruct (List.filter _ _); [done|].
  cbn [fst]. eexists. split; [apply getRoom_putRoom|]. done.
Qed.

Lemma startNextRound_room st roomId now r1 r2 room :
  getRoom (roomManager st) roomId = Some room → r_gameState room = playing →
  ∃ g syl p c,
    startNextRound st roomId now r1 r2 =
      (putRoom roomId (r_setGame g room) st,
       [(toRoom roomId,
         syllableUpdate syl (currentPlayerIndex (r_game room)) p
           (roundNumber (r_game room) + 1) c)]) ∧
    roundNumber g = roundNumber (r_game room) + 1 ∧
    currentPlayerIndex g = currentPlayerIndex (r_game room) ∧
    serverControlledUntil g = Some (now + 3000)%Z.
Proof.
  intros Hroom Hplaying. unfold startNextRound. rewrite Hroom.
  rewrite bool_decide_false by (intros H; by apply H).
  destruct (pickServerSyllable _ _ _ _ _) as [newSyl used'].
  unfold startRoomTimer. rewrite getRoom_putRoom, putRoom_putRoom.
  cbn [r_game r_setGame]. do 4 eexists. split; [reflexivity|]. done.
Qed.

End Rounds.



(** X20: when a player loses their last life and at most one player is
    left alive, the game is over: the room is back in the lobby with the
    timer cleared, no spectator waiting, and every player, the eliminated
    ones included, is given the starting lives again. *)
Theorem handleLoseLife_last_life_ends_game (st : Server) (roomId playerSocketId : string)
    (now : Z) (r1 r2 : nat) (room : Room) (i : nat) (player : Player) :
  getRoom (roomManager st) roomId = Some room → r_gameState room = playing →
  paused (r_game room) = false →
  list_find (λ p, p_socketId p = playerSocketId) (r_players room) = Some (i, player) →
  p_isAlive player = true → p_lives player ≤ 1 →
  length (List.filter (λ p, p_isAlive p && (0 <? p_lives p))
            (<[i := p_setIsAlive false (p_setLives 0 player)]> (r_players room))) ≤ 1 →
  ∃ room' fresh,
    getRoom (roomManager (handleLoseLife st roomId playerSocketId now r1 r2)) roomId
      = Some room' ∧
    r_gameState room' = lobby ∧
    r_players room' =
      resetForLobby (startingLives (r_settings room)) <$> (r_players room ++ fresh) ∧
    r_pendingSpectators room' = [] ∧
    timer (r_game room') = None.
Proof.
  intros Hroom Hplaying Hpaused Hfind Halive Hlives Hlast.
  unfold handleLoseLife. rewrite Hroom, Hpaused, Hfind, Halive.
  rewrite bool_decide_false by (intros H; by apply H). cbn [negb].
  assert (p_lives player - 1 = 0) as Hzero by lia. rewrite Hzero.
  cbn [p_lives p_setLives Nat.leb]. cbn zeta. cbn [r_players r_setPlayers].
  apply Nat.leb_le in Hlast. rewrite Hlast.
  unfold endGame. cbn [roomManager putRoom sv_setRoomManager rm_setRooms rooms].
  rewrite lookup_insert_eq.
  destruct (promoteSpectator_fold roomId (startingLives (r_settings room))
              (r_pendingSpectators room)
              (<[i := p_setIsAlive false (p_setLives 0 player)]> (r_players room)) []
              (sessions (roomManager st))) as [sess' Hfold].
  cbn zeta in Hfold.
  cbn [r_settings r_setPlayers r_pendingSpectators r_players sessions sockets rm_setRooms].
  rewrite Hfold. cbn [fst roomManager sv_setRoomManager].
  eexists.
  exists (playerOfSpectator (startingLives (r_settings room)) <$>
          promoted (p_token <$> <[i := p_setIsAlive false (p_setLives 0 player)]>
                                  (r_players room)) (r_pendingSpectators room)).
  split; [apply lookup_insert_eq|].
  cbn. split_and!; try done.
  rewrite !fmap_app. f_equal.
  apply list_find_Some in Hfind as (Hi & _).
  rewrite list_fmap_insert. apply list_insert_id.
  rewrite list_lookup_fmap, Hi. reflexivity.
Qed.

Lemma handleLoseLife_last_life_ends_game_witness :
  ∃ room' fresh,
    getRoom (roomManager
               (handleLoseLife (handleLoseLife exPlaying "r1" "sockA" 8000 0 0)
                  "r1" "sockA" 16000 0 0)) "r1" = Some room' ∧
    r_gameState room' = lobby ∧
    r_players room' = resetForLobby 2 <$> (r_players exPlayingRoom ++ fresh) ∧
    r_pendingSpectators room' = [] ∧
    timer (r_game room') = None.
Proof.
  pose (st1 := handleLoseLife exPlaying "r1" "sockA" 8000 0 0).
  pose (room1 := default exPlayingRoom (getRoom (roomManager st1) "r1")).
  destruct (handleLoseLife_last_life_ends_game st1 "r1" "sockA" 16000 0 0 room1 0
              (mkPlayer "tokA" "sockA" "Ana" "" true true 1 0 true false))
    as (room' & fresh & Hroom & Hstate & Hplayers & Hpending & Htimer).
  - vm_compute. reflexivity.
  - reflexivity.
  - reflexivity.
  - vm_compute. reflexivity.
  - reflexivity.
  - vm_compute. lia.
  - vm_compute. lia.
  - exists room', fresh. split_and!; done.
Defined.

(** X21: the [newSyllable] of the host that follows a round started by the
    server is swallowed, once: sent within three seconds of the round, it
    starts no round and emits nothing, and it lifts the guard, so that the
    next one starts a round. *)
Theorem newSyllable_after_server_round (st0 : Server) (token : option string)
    (msg : NewSyllable) (room : Room) (t now now' : Z) (r1 r2 r3 r4 r5 r6 : nat) :
  getRoom (roomManager st0) (ns_roomId msg) = Some room → r_gameState room = playing →
  isHost (roomManager st0) (ns_roomId msg) token = true →
  (0 ≤ t)%Z → (now < t + 3000)%Z →
  let st := (startNextRound st0 (ns_roomId msg) t r1 r2).1 in
  let first := on_newSyllable st token msg now r3 r4 in
  first.2 = [] ∧
  (∃ room1,
     getRoom (roomManager first.1) (ns_roomId msg) = Some room1 ∧
     roundNumber (r_game room1) = roundNumber (r_game room) + 1 ∧
     serverControlledUntil (r_game room1) = Some 0%Z) ∧
  ∃ syl i p c,
    (on_newSyllable first.1 token msg now' r5 r6).2 =
      [(toRoom (ns_roomId msg),
        syllableUpdate syl i p (roundNumber (r_game room) + 2) c)].
Proof.
  intros Hroom Hplaying Hhost Ht Hnow. cbn zeta.
  destruct (startNextRound_room st0 _ t r1 r2 room Hroom Hplaying)
    as (g & syl & p & c & -> & Hround & Hindex & Hguard).
  cbn [fst].
  assert (∀ st' room', getRoom (roomManager st') (ns_roomId msg) = Some room' →
            r_hostToken room' = r_hostToken room →
            isHost (roomManager st') (ns_roomId msg) token = true) as Hhost'.
  { intros st' room' Hroom' Heq. unfold isHost, getRoom in *.
    rewrite Hroom'. rewrite Hroom in Hhost. by rewrite Heq. }
  assert (on_newSyllable (putRoom (ns_roomId msg) (r_setGame g room) st0) token msg now r3 r4
          = (putRoom (ns_roomId msg)
               (r_setGame (g_setServerControlledUntil (Some 0%Z) g) room) st0, [])) as ->.
  { unfold on_newSyllable. rewrite getRoom_putRoom.
    cbn [r_gameState r_setGame r_game].
    rewrite bool_decide_false by (intros H; by apply H).
    rewrite (Hhost' _ _ (getRoom_putRoom _ _ _)) by done. cbn [negb].
    rewrite Hguard. unfold orZ.
    assert ((t + 3000 =? 0)%Z = false) as Hne by lia.
    assert ((now <? t + 3000)%Z = true) as Hlt by lia.
    rewrite !Hne, Hlt. cbn [negb andb].
    rewrite putRoom_putRoom. reflexivity. }
  cbn [fst snd]. split; [done|]. split.
  { eexists. split; [apply getRoom_putRoom|]. done. }
  unfold on_newSyllable. rewrite getRoom_putRoom.
  cbn [r_gameState r_setGame r_game].
  rewrite bool_decide_false by (intros H; by apply H).
  rewrite (Hhost' _ _ (getRoom_putRoom _ _ _)) by done. cbn [negb].
  cbn [serverControlledUntil g_setServerControlledUntil orZ Z.eqb negb andb].
  rewrite putRoom_putRoom.
  match goal with |- context [startNextRound (putRoom ?rid ?r ?s) _ _ _ _] =>
    destruct (startNextRound_room (putRoom rid r s) rid now' r5 r6 r
                (getRoom_putRoom _ _ _)) as (g' & syl' & p' & c' & -> & _)
  end.
  { by destruct (ns_playerIndex msg). }
  cbn [snd].
  match goal with |- context [syllableUpdate _ _ _ (roundNumber (r_game ?r) + 1) _] =>
    assert (roundNumber (r_game r) + 1 = roundNumber (r_game room) + 2) as ->
      by (destruct (ns_playerIndex msg); cbn; lia)
  end.
  by do 4 eexists.
Qed.

Lemma newSyllable_after_server_round_witness :
  (on_newSyllable (startNextRound exServer "r1" 0 0 0).1 (Some "tokA")
     (mkNewSyllable "r1" None) 1000 0 0).2 = [].
Proof.
  assert (getRoom (roomManager exServer) "r1"
          = Some (default exCreatedRoom (getRoom (roomManager exServer) "r1"))) as Hroom
    by (vm_compute; reflexivity).
  refine (proj1 (newSyllable_after_server_round exServer (Some "tokA")
                   (mkNewSyllable "r1" None) _ 0 1000 2000 0 0 0 0 0 0 Hroom _ _ _ _)).
  - reflexivity.
  - vm_compute. reflexivity.
  - lia.
  - lia.
Defined.

Section Submit.

Lemma scores_rebind (room : Room) (i : nat) (player : Player) (socketId : string) :
  r_players room !! i = Some player →
  scores (r_setPlayers (<[i := p_setSocketId socketId player]> (r_players room)) room)
  = scores room.
Proof.
  intros Hi. unfold scores. cbn. rewrite list_fmap_insert. apply list_insert_id.
  by rewrite list_lookup_fmap, Hi.
Qed.

End Submit.

Section SubmitWord.

(** The outcome of [on_submitWord] on a room: either no word was accepted
    and the room keeps its game and its scores, or the word of the player
    [pi] was accepted. *)
Lemma on_submitWord_outcome st socketId token msg now r1 r2 room :
  getRoom (roomManager st) (sw_roomId msg) = Some room →
  let r := on_submitWord st socketId token msg now r1 r2 in
  (existsb isAccepted r.2 = false ∧
   ∃ room',
     getRoom (roomManager r.1) (sw_roomId msg) = Some room' ∧
     r_game room' = r_game room ∧ scores room' = scores room ∧
     r_gameState room' = r_gameState room) ∨
  (existsb isAccepted r.2 = true ∧
   ∃ tok pi player g,
     token = Some tok ∧
     list_find (λ p, p_token p = tok) (r_players room) = Some (pi, player) ∧
     p_isAlive player = true ∧
     dictHas (index st) (Js.trim (Js.toUpperCase (sw_word msg))) = true ∧
     getRoom (roomManager r.1) (sw_roomId msg) =
       Some (r_setGame g
               (r_setPlayers
                  (<[pi := p_setWordsFound (p_wordsFound player + 1)
                             (p_setSocketId socketId player)]> (r_players room)) room)) ∧
     roundNumber g = roundNumber (r_game room) + 1).
Proof.
  intros Hroom. cbn zeta.
  assert (∀ ws,
            ∃ room',
              getRoom (roomManager (sv_setWordSubmissions ws st)) (sw_roomId msg) = Some room' ∧
              r_game room' = r_game room ∧ scores room' = scores room ∧
              r_gameState room' = r_gameState room) as Hsame.
  { intros ws. by exists room. }
  unfold on_submitWord. rewrite Hroom.
  destruct token as [tok|]; [|left; split; [done|apply (Hsame (wordSubmissions st))]].
  case_bool_decide as Hplaying; [left; split; [done|apply (Hsame (wordSubmissions st))]|].
  assert (r_gameState room = playing) as Hplay by (by destruct (r_gameState room)).
  destruct (list_find _ _) as [[pi player]|] eqn:Hfind;
    [|left; split; [done|apply (Hsame (wordSubmissions st))]].
  destruct (p_isAlive player) eqn:Halive; cbn [negb];
    [|left; split; [done|apply (Hsame (wordSubmissions st))]].
  pose proof Hfind as (Hpi & _ & _)%list_find_Some.
  destruct (filter _ _); [|left; split; [done|apply Hsame]].
  cbn zeta.
  match goal with |- context [if ?b then (?s, [(toSocket _, wordRejected _ _ _ "Pas votre tour")]) else _] =>
    destruct b; [left; split; [done|apply Hsame]|]
  end.
  assert (∀ s,
            ∃ room',
              getRoom (roomManager
                         (putRoom (sw_roomId msg)
                            (r_setPlayers (<[pi := p_setSocketId socketId player]>
                                             (r_players room)) room) s))
                (sw_roomId msg) = Some room' ∧
              r_game room' = r_game room ∧ scores room' = scores room ∧
              r_gameState room' = r_gameState room) as Hrebound.
  { intros s. eexists. split; [apply getRoom_putRoom|]. split_and!; [done| |done].
    by apply scores_rebind. }
  destruct (negb _); [left; split; [done|apply Hrebound]|].
  destruct (_ && _); [left; split; [done|apply Hrebound]|].
  destruct (dictHas _ _) eqn:Hdict; [|left; split; [done|apply Hrebound]].
  right.
  match goal with |- context [advanceToNextAlivePlayer ?s3 ?rid] =>
    destruct (advanceToNextAlivePlayer_room s3 rid _ (getRoom_putRoom _ _ _))
      as (g1 & Hroom4 & Hround1 & _);
    destruct (advanceToNextAlivePlayer s3 rid) as [st4 ev1]
  end.
  cbn [fst] in Hroom4.
  destruct (startNextRound_room st4 (sw_roomId msg) now r1 r2 _ Hroom4)
    as (g2 & syl & p & c & -> & Hround2 & _); [done|].
  cbn [fst snd]. split; [done|].
  exists tok, pi, player, g2. split_and!; try done.
  - rewrite getRoom_putRoom. cbn.
    by rewrite list_insert_insert_eq.
  - cbn in Hround1, Hround2. lia.
Qed.

End SubmitWord.

(** X22: a submission that is not accepted costs nothing: whatever the
    reason of the refusal, the room keeps its syllable, its turn, its
    round and its timer, and every player keeps their lives and words. *)
Theorem submitWord_refused_costs_nothing (st : Server) (socketId : string)
    (token : option string) (msg : SubmitWord) (now : Z) (r1 r2 : nat) (room : Room) :
  getRoom (roomManager st) (sw_roomId msg) = Some room →
  let r := on_submitWord st socketId token msg now r1 r2 in
  existsb isAccepted r.2 = false →
  ∃ room',
    getRoom (roomManager r.1) (sw_roomId msg) = Some room' ∧
    r_game room' = r_game room ∧ scores room' = scores room ∧
    r_gameState room' = r_gameState room.
Proof.
  intros Hroom r Hrefused.
  destruct (on_submitWord_outcome st socketId token msg now r1 r2 room Hroom)
    as [[_ Hsame]|[Hacc _]]; [exact Hsame|].
  fold r in Hacc. congruence.
Qed.

Lemma submitWord_refused_costs_nothing_witness :
  ∃ room',
    getRoom (roomManager
               (on_submitWord exPlaying "sockB" (Some "tokB")
                  (mkSubmitWord "r1" "abri" "AB") 1000 0 0).1) "r1" = Some room' ∧
    r_game room' = r_game exPlayingRoom ∧ scores room' = scores exPlayingRoom ∧
    r_gameState room' = r_gameState exPlayingRoom.
Proof.
  apply (submitWord_refused_costs_nothing exPlaying "sockB" (Some "tokB")
           (mkSubmitWord "r1" "abri" "AB") 1000 0 0 exPlayingRoom).
  - vm_compute. reflexivity.
  - vm_compute. reflexivity.
Defined.



(* ===================================================================== *)
(** * The syllables the server picks                                      *)
(* ===================================================================== *)

Section Picker.











End Picker.


(* ===================================================================== *)
(** * The rate limiter                                                    *)
(* ===================================================================== *)

Section RateLimit.

Lemma rateLimitRun_counting (max : nat) (key : string) (t0 : Z) (times : list Z) :
  ∀ (c : nat) (rateBuckets : gmap string Bucket),
    rateBuckets !! key = Some (mkBucket t0 c) →
    Forall (λ t, (t - t0 < RATE_LIMIT_WINDOW_MS)%Z) times →
    rateLimitRun max rateBuckets key times =
      imap (λ k t, if c + k + 1 <=? max then passed
                   else rateLimited (ceilSeconds (t0 + RATE_LIMIT_WINDOW_MS - t))) times.
Proof.
  induction times as [|t times IH]; intros c rateBuckets Hkey Hwin; [done|].
  apply Forall_cons in Hwin as [Ht Hwin].
  cbn [rateLimitRun imap]. unfold rateLimitMiddleware. rewrite Hkey. cbn [b_ts b_count].
  destruct (Z.ltb_spec (t - t0) RATE_LIMIT_WINDOW_MS) as [_|]; [|lia].
  rewrite Nat.add_0_r.
  assert (imap ((λ k t1, if c + k + 1 <=? max then passed
                         else rateLimited (ceilSeconds (t0 + RATE_LIMIT_WINDOW_MS - t1))) ∘ S)
               times
          = imap (λ k t1, if (c + 1) + k + 1 <=? max then passed
                          else rateLimited (ceilSeconds (t0 + RATE_LIMIT_WINDOW_MS - t1)))
               times) as ->.
  { apply imap_ext. intros k t1 _. cbn. by replace (c + S k + 1) with (c + 1 + k + 1) by lia. }
  destruct (Nat.ltb_spec max (c + 1)) as [Hover|Hok].
  - destruct (Nat.leb_spec (c + 1) max); [lia|]. f_equal.
    apply IH; [apply lookup_insert_eq|done].
  - destruct (Nat.leb_spec (c + 1) max); [|lia]. f_equal.
    apply IH; [apply lookup_insert_eq|done].
Qed.

Lemma rateLimitRun_lookup (max : nat) (key : string) (times : list Z) :
  ∀ b1 b2 : gmap string Bucket,
    b1 !! key = b2 !! key → rateLimitRun max b1 key times = rateLimitRun max b2 key times.
Proof.
  induction times as [|t times IH]; intros b1 b2 Hkey; [done|].
  cbn [rateLimitRun]. unfold rateLimitMiddleware. rewrite <- Hkey.
  destruct (b1 !! key) as [bucket|].
  - destruct (_ <? _)%Z.
    + destruct (_ <? _); f_equal; apply IH; by rewrite !lookup_insert_eq.
    + f_equal. apply IH. by rewrite !lookup_insert_eq.
  - f_equal. apply IH. by rewrite !lookup_insert_eq.
Qed.

End RateLimit.

(** X25: of the requests a client sends to one path within a minute of
    the first, the first is let through whatever the limit, and the
    [k]-th is let through if and only if [k] is at most the limit; a
    refused request is told to retry when the minute is over. *)
Theorem rateLimit_within_window (max : nat) (rateBuckets : gmap string Bucket)
    (key : string) (t0 : Z) (times : list Z) :
  rateBuckets !! key = None →
  Forall (λ t, (t - t0 < RATE_LIMIT_WINDOW_MS)%Z) times →
  rateLimitRun max rateBuckets key (t0 :: times) =
    passed ::
    imap (λ k t, if k + 2 <=? max then passed
                 else rateLimited (ceilSeconds (t0 + RATE_LIMIT_WINDOW_MS - t))) times.
Proof.
  intros Hnew Hwin. cbn [rateLimitRun]. unfold rateLimitMiddleware. rewrite Hnew.
  f_equal. rewrite (rateLimitRun_counting max key t0 times 1); [|apply lookup_insert_eq|done].
  apply imap_ext. intros k t _. cbn beta. by replace (1 + k + 1) with (k + 2) by lia.
Qed.

Lemma rateLimit_within_window_witness :
  rateLimitRun 2 ∅ "1.2.3.4:/api/words" [0; 10; 20; 59999]%Z
  = [passed; passed; rateLimited 60; rateLimited 1].
Proof.
  rewrite (rateLimit_within_window 2 ∅ "1.2.3.4:/api/words" 0 [10; 20; 59999]%Z).
  - vm_compute. reflexivity.
  - apply lookup_empty.
  - repeat constructor.
Defined.

(** X26: pruning the buckets never changes an answer of the limiter: the
    requests that come after a pruning are answered as if it had not
    taken place. *)
Theorem pruneBuckets_transparent (max : nat) (rateBuckets : gmap string Bucket)
    (pruned : Z) (key : string) (times : list Z) :
  Forall (λ t, (pruned ≤ t)%Z) times →
  rateLimitRun max (pruneBuckets rateBuckets pruned) key times
  = rateLimitRun max rateBuckets key times.
Proof.
  intros Hafter. unfold pruneBuckets.
  destruct (rateBuckets !! key) as [bucket|] eqn:Hkey.
  - destruct (decide (pruned - b_ts bucket > RATE_LIMIT_WINDOW_MS * 5)%Z) as [Hold|Hkeep].
    + destruct times as [|t times]; [done|]. apply Forall_cons in Hafter as [Ht _].
      cbn [rateLimitRun]. unfold rateLimitMiddleware. rewrite Hkey.
      rewrite map_lookup_filter_None_2 by (right; intros x Hx; cbn; naive_solver).
      destruct (Z.ltb_spec (t - b_ts bucket) RATE_LIMIT_WINDOW_MS) as [Hin|_].
      { unfold RATE_LIMIT_WINDOW_MS in *. lia. }
      f_equal. apply rateLimitRun_lookup. by rewrite !lookup_insert_eq.
    + apply rateLimitRun_lookup. rewrite Hkey. by apply map_lookup_filter_Some_2.
  - apply rateLimitRun_lookup. rewrite Hkey.
    apply map_lookup_filter_None_2. by left.
Qed.

Lemma pruneBuckets_transparent_witness :
  rateLimitRun 2 (pruneBuckets {["k" := mkBucket 0 5]} 400000) "k" [400000; 400001]%Z
  = rateLimitRun 2 {["k" := mkBucket 0 5]} "k" [400000; 400001]%Z.
Proof.
  apply (pruneBuckets_transparent 2 {["k" := mkBucket 0 5]} 400000 "k" [400000; 400001]%Z).
  repeat constructor; lia.
Defined.

(** X27: a second [toggleReady] undoes the first: whoever sends them, the
    state is the one before the two events. *)
Theorem toggleReady_twice (st : Server) (socketId socketId' : string)
    (token : option string) (roomId : string) :
  (on_toggleReady (on_toggleReady st socketId token roomId).1 socketId' token roomId).1 = st.
Proof.
  unfold on_toggleReady at 2.
  destruct (getRoom (roomManager st) roomId) as [room|] eqn:Hroom.
  2: { cbn [fst]. unfold on_toggleReady. by rewrite Hroom. }
  destruct token as [tok|].
  2: { cbn [fst]. unfold on_toggleReady. by rewrite Hroom. }
  destruct (list_find _ (r_players room)) as [[i player]|] eqn:Hfind.
  2: { cbn [fst]. unfold on_toggleReady. by rewrite Hroom, Hfind. }
  destruct (p_isHost player) eqn:Hhost.
  { cbn [fst]. unfold on_toggleReady. by rewrite Hroom, Hfind, Hhost. }
  cbn [fst]. unfold on_toggleReady. rewrite getRoom_putRoom. cbn [r_players r_setPlayers].
  pose proof Hfind as (Hi & Htok & _)%list_find_Some.
  rewrite (list_find_insert_same _ _ i player
             (p_setIsReady (negb (p_isReady player)) player) Hfind Htok).
  cbn [p_isHost p_setIsReady]. rewrite Hhost. cbn [fst].
  rewrite putRoom_putRoom, list_insert_insert_eq.
  assert (p_setIsReady (negb (p_isReady (p_setIsReady (negb (p_isReady player)) player)))
            (p_setIsReady (negb (p_isReady player)) player) = player) as ->.
  { destruct player. cbn. by rewrite negb_involutive. }
  rewrite list_insert_id by done.
  unfold putRoom, getRoom in *. destruct st as [[rs ss sk] ix ws]. cbn in *.
  rewrite insert_id; [done|]. rewrite Hroom. by destruct room.
Qed.
